(** * custom-controls.js: icon buttons, asset loading and toggle handlers

    A shallow embedding of [src/custom-controls.js] and the properties of
    its control-state synchronisation logic.

    - JavaScript numbers are IEEE 754 binary64 values: they are modelled by
      Rocq's primitive floats, so comparisons, sums, products and quotients
      are the ones the script computes.
    - Code with side effects is written in a state-and-exception monad over
      one [State] record (console, issued fetches, pending asset loads, the
      document's picture-in-picture state, the player, the button that is
      [this]).
    - [fetch] is asynchronous: [updateIcon] and [setBigOverlaySVG] run up to
      their [await] and leave a pending load in the state; [settle] delivers
      the transport's outcome to one pending load and runs the rest of the
      function.  Out-of-order deliveries are therefore part of the model. *)

From Stdlib Require Import ZArith Floats List String Ascii Bool Lia.
From Stdlib Require Import DecimalString.
Import ListNotations.

Set Warnings "-inexact-float,-register-all".

Open Scope string_scope.
Open Scope list_scope.

(* ================================================================== *)
(** ** JavaScript values and numbers *)

Module JS.

(** Thrown values.  [Error] is [new Error(msg)]; [TypeError] is what the
    engine raises on a property access on [undefined] or [null];
    [HostError] is whatever a host or platform call fails with. *)
Inductive error : Type :=
| Error (message : string)
| TypeError (message : string)
| HostError (message : string).

(** How a promise ends up. *)
Inductive settlement : Type :=
| Fulfilled
| Rejected (reason : error).

(** The values a click callback or a host call can hand back. *)
Inductive value : Type :=
| Undefined
| Promise (s : settlement).

(** Result of evaluating a statement: normal completion or a throw. *)
Inductive completion (A : Type) : Type :=
| Normal (a : A)
| Abrupt (e : error).
Arguments Normal {A} a.
Arguments Abrupt {A} e.

(** [!s] for a string that may be absent ([undefined] or [null]). *)
Definition falsy (s : option string) : bool :=
  match s with
  | None => true
  | Some t => String.eqb t ""
  end.

(** [a || b] on strings: [a] when truthy, else [b]. *)
Definition or_else (a : option string) (b : string) : string :=
  match a with
  | Some t => if String.eqb t "" then b else t
  | None => b
  end.

(** [a === b] for a present string [a] and a string-or-null [b]. *)
Definition strict_eq (a : string) (b : option string) : bool :=
  match b with
  | Some t => String.eqb a t
  | None => false
  end.

(** Decimal rendering of a natural number, as in a template string. *)
Definition nat_to_string (n : nat) : string :=
  NilEmpty.string_of_uint (Nat.to_uint n).

(** An integer of magnitude below 2^53 as a number. *)
Definition of_Z (n : Z) : float :=
  match n with
  | Z0 => 0%float
  | Zpos p => PrimFloat.of_uint63 (Uint63.of_Z (Zpos p))
  | Zneg p => (- PrimFloat.of_uint63 (Uint63.of_Z (Zpos p)))%float
  end.

(** [Math.round]: the integer closest to [x], a tie going towards
    +infinity; NaN, the infinities, the zeros and integral values are
    returned as they are; a result of zero keeps the sign of [x].
    A finite [x] is [(-1)^s * m * 2^e]; when [e < 0] the closest integer
    is [floor ((2 * (+-m) + 2^-e) / 2^(1-e))]. *)
Definition Math_round (x : float) : float :=
  match Prim2SF x with
  | S754_finite s m e =>
      if (0 <=? e)%Z then x
      else
        let d := Z.pow 2 (- e) in
        let num := if s then Z.neg m else Z.pos m in
        let n := Z.div (2 * num + d) (2 * d) in
        if (n =? 0)%Z then (if s then (-0)%float else 0%float)
        else of_Z n
  | _ => x
  end.

End JS.
Export JS.

(* ================================================================== *)
(** ** The DOM as the script uses it *)

Module Dom.

(** What a button element holds after the script has written to it:
    [el.textContent = s] leaves one text node (none when [s] is empty);
    [setButtonSVG] leaves one [span] with a class and the markup assigned
    to its [innerHTML]. *)
Inductive content : Type :=
| TextNode (data : string)
| Span (className : string) (innerHTML : string)
| HostNode (name : string).

(** [el.textContent = s]. *)
Definition set_textContent (s : string) : list content :=
  if String.eqb s "" then [] else [TextNode s].

(** Listeners the script registers. *)
Inductive listener : Type :=
| SettingsClick.

(** The element tree under the player's root: text nodes and elements
    with a tag, their class list, attributes, click listeners and
    children. *)
Inductive node : Type :=
| Text (data : string)
| Elem (tag : string) (classList : list string)
       (attrs : list (string * string)) (listeners : list listener)
       (children : list node).

(** A reference to a node: the child indices leading to it from the
    root element. *)
Definition path := list nat.

Definition has_class (c : string) (classList : list string) : bool :=
  existsb (String.eqb c) classList.

(** First element with class [c] in document order, the node itself
    included; the result is the path from [n]. *)
Fixpoint find_class (c : string) (n : node) : option path :=
  match n with
  | Text _ => None
  | Elem _ cl _ _ kids =>
      if has_class c cl then Some []
      else
        (fix scan (i : nat) (ks : list node) : option path :=
           match ks with
           | [] => None
           | k :: ks' =>
               match find_class c k with
               | Some p => Some (i :: p)
               | None => scan (S i) ks'
               end
           end) 0%nat kids
  end.

(** The same scan over a list of siblings, the first of index [i]. *)
Fixpoint find_class_in (c : string) (i : nat) (ks : list node) : option path :=
  match ks with
  | [] => None
  | k :: ks' =>
      match find_class c k with
      | Some p => Some (i :: p)
      | None => find_class_in c (S i) ks'
      end
  end.

(** [el.querySelector('.c')]: the first descendant of the element with
    class [c]; the element itself is not a candidate. *)
Definition querySelector (c : string) (kids : list node) : option path :=
  find_class_in c 0 kids.

(** The node a path designates among the siblings [ks]. *)
Fixpoint lookup (ks : list node) (p : path) : option node :=
  match p with
  | [] => None
  | i :: p' =>
      match nth_error ks i with
      | None => None
      | Some n =>
          match p' with
          | [] => Some n
          | _ :: _ =>
              match n with
              | Elem _ _ _ _ kids => lookup kids p'
              | Text _ => None
              end
          end
      end
  end.

(** Replace the [i]-th element of a list. *)
Fixpoint set_nth {A : Type} (l : list A) (i : nat) (x : A) : list A :=
  match l, i with
  | [], _ => []
  | _ :: t, O => x :: t
  | h :: t, S j => h :: set_nth t j x
  end.

(** Rewrite the node a path designates. *)
Fixpoint update (ks : list node) (p : path) (f : node -> node) : list node :=
  match p with
  | [] => ks
  | i :: p' =>
      match nth_error ks i with
      | None => ks
      | Some n =>
          match p' with
          | [] => set_nth ks i (f n)
          | _ :: _ =>
              match n with
              | Elem t cl a ls kids => set_nth ks i (Elem t cl a ls (update kids p' f))
              | Text _ => ks
              end
          end
      end
  end.

(** [target.closest('.c')]: the nearest inclusive ancestor of the target
    with class [c], searched from the target upwards; [acc] is the path
    of the siblings [ks]. *)
Fixpoint closest_from (c : string) (ks : list node) (acc p : path) : option path :=
  match p with
  | [] => None
  | i :: p' =>
      match nth_error ks i with
      | None => None
      | Some (Text _) => None
      | Some (Elem _ cl _ _ kids) =>
          let here := if has_class c cl then Some (acc ++ [i]) else None in
          match p' with
          | [] => here
          | _ :: _ =>
              match closest_from c kids (acc ++ [i]) p' with
              | Some q => Some q
              | None => here
              end
          end
      end
  end.

Definition closest (c : string) (ks : list node) (target : path) : option path :=
  closest_from c ks [] target.

(** [el.getAttribute(name)]. *)
Fixpoint getAttribute (name : string) (attrs : list (string * string)) : option string :=
  match attrs with
  | [] => None
  | (k, v) :: rest => if String.eqb k name then Some v else getAttribute name rest
  end.

(** [classList.toggle(c)]: removes [c] and answers [false] when present,
    else adds it and answers [true]. *)
Definition toggle (c : string) (classList : list string) : bool * list string :=
  if has_class c classList
  then (false, filter (fun t => negb (String.eqb c t)) classList)
  else (true, classList ++ [c]).

(** Induction on element trees, the children of an element taken
    together. *)
Section NodeInduction.
Variable P : node -> Prop.
Hypothesis P_text : forall d, P (Text d).
Hypothesis P_elem :
  forall t cl a ls kids, Forall P kids -> P (Elem t cl a ls kids).

Fixpoint node_induction (n : node) : P n :=
  match n with
  | Text d => P_text d
  | Elem t cl a ls kids =>
      P_elem t cl a ls kids
             ((fix all (ks : list node) : Forall P ks :=
                 match ks with
                 | [] => Forall_nil P
                 | k :: ks' => Forall_cons k (node_induction k) (all ks')
                 end) kids)
  end.
End NodeInduction.

(** An element carrying class [c]. *)
Definition marked (c : string) (o : option node) : Prop :=
  exists t cl a ls kids, o = Some (Elem t cl a ls kids) /\ has_class c cl = true.

End Dom.
Export Dom.

(* ================================================================== *)
(** ** State of the page and the effect monad *)

(** One argument of a [console.log] call. *)
Inductive logarg : Type :=
| LStr (s : string)
| LErr (e : error).

(** The options object a button is built from ([opts.onClick] is passed to
    [handleClick] separately). *)
Record Options : Type := mkOptions {
  opt_iconBasePath : option string;
  opt_label : option string;
  opt_icon : option string;
  opt_log : bool
}.

(** An [SVGIconButton]: the fields the script reads and writes, and the
    children of its element. *)
Record Button : Type := mkButton {
  opts : Options;
  iconBasePath : string;
  currentIcon : option string;
  el : list content
}.

(** The host player: the state the script queries, the element of its
    [BigPlayButton] child when it has one, and the children of its root
    element. *)
Record Player : Type := mkPlayer {
  muted : bool;
  volume : float;
  isFullscreen : bool;
  playbackRate : float;
  BigPlayButton : option (list content);
  player_el : list node
}.

(** The platform's picture-in-picture state. *)
Record Document : Type := mkDocument {
  pictureInPictureElement : option string;
  pictureInPictureEnabled : bool
}.

(** Who waits for a pending asset load: [updateIcon] called with an icon
    name, or [setBigOverlaySVG]. *)
Inductive waiter : Type :=
| IconWaiter (iconName : string)
| OverlayWaiter.

Record load : Type := mkLoad {
  load_path : string;
  load_log : bool;
  load_waiter : waiter
}.

Record State : Type := mkState {
  console : list (list logarg);   (* console.log calls, oldest first *)
  requests : list string;         (* paths passed to fetch, oldest first *)
  inflight : list load;           (* fetches not yet answered *)
  unhandled : list error;         (* rejections no handler observes *)
  document : Document;
  player : Player;
  this : Button
}.

Definition set_console (c : list (list logarg)) (s : State) : State :=
  mkState c (requests s) (inflight s) (unhandled s) (document s) (player s) (this s).
Definition set_requests (r : list string) (s : State) : State :=
  mkState (console s) r (inflight s) (unhandled s) (document s) (player s) (this s).
Definition set_inflight (l : list load) (s : State) : State :=
  mkState (console s) (requests s) l (unhandled s) (document s) (player s) (this s).
Definition set_unhandled (u : list error) (s : State) : State :=
  mkState (console s) (requests s) (inflight s) u (document s) (player s) (this s).
Definition set_document (d : Document) (s : State) : State :=
  mkState (console s) (requests s) (inflight s) (unhandled s) d (player s) (this s).
Definition set_player (p : Player) (s : State) : State :=
  mkState (console s) (requests s) (inflight s) (unhandled s) (document s) p (this s).
Definition set_this (b : Button) (s : State) : State :=
  mkState (console s) (requests s) (inflight s) (unhandled s) (document s) (player s) b.

Definition set_currentIcon (i : option string) (b : Button) : Button :=
  mkButton (opts b) (iconBasePath b) i (el b).
Definition set_el (c : list content) (b : Button) : Button :=
  mkButton (opts b) (iconBasePath b) (currentIcon b) c.

Definition set_playbackRate (r : float) (p : Player) : Player :=
  mkPlayer (muted p) (volume p) (isFullscreen p) r (BigPlayButton p) (player_el p).
Definition set_BigPlayButton (b : option (list content)) (p : Player) : Player :=
  mkPlayer (muted p) (volume p) (isFullscreen p) (playbackRate p) b (player_el p).
Definition set_player_el (ks : list node) (p : Player) : Player :=
  mkPlayer (muted p) (volume p) (isFullscreen p) (playbackRate p) (BigPlayButton p) ks.

(** Statements run in a state, complete normally or throw, and leave a
    state; what was written before a throw stays written. *)
Definition M (A : Type) : Type := State -> completion A * State.

Definition ret {A : Type} (a : A) : M A := fun s => (Normal a, s).

Definition bind {A B : Type} (m : M A) (k : A -> M B) : M B :=
  fun s =>
    match m s with
    | (Normal a, s') => k a s'
    | (Abrupt e, s') => (Abrupt e, s')
    end.

Definition throw {A : Type} (e : error) : M A := fun s => (Abrupt e, s).

(** [try { body } catch (err) { handler }]. *)
Definition try_catch {A : Type} (body : M A) (handler : error -> M A) : M A :=
  fun s =>
    match body s with
    | (Normal a, s') => (Normal a, s')
    | (Abrupt e, s') => handler e s'
    end.

Definition gets {A : Type} (f : State -> A) : M A := fun s => (Normal (f s), s).
Definition modify (f : State -> State) : M unit := fun s => (Normal tt, f s).

Declare Scope js_scope.
Delimit Scope js_scope with js.
Notation "x <- m ;; k" := (bind m (fun x => k))
  (at level 61, m at next level, right associativity) : js_scope.
Notation "m ;; k" := (bind m (fun _ => k))
  (at level 61, right associativity) : js_scope.
Open Scope js_scope.

(** An [async] function: its body runs and the call answers a promise,
    rejected when the body throws.  Nothing is thrown to the caller. *)
Definition async (body : M unit) : M value :=
  fun s =>
    match body s with
    | (Normal _, s') => (Normal (Promise Fulfilled), s')
    | (Abrupt e, s') => (Normal (Promise (Rejected e)), s')
    end.

(** [await v]: the value of a fulfilled promise, the reason of a rejected
    one thrown at the [await]. *)
Definition await (v : value) : M unit :=
  match v with
  | Promise (Rejected e) => throw e
  | _ => ret tt
  end.

(** An expression statement: the value is dropped.  A rejected promise
    dropped with no handler attached is an unhandled rejection. *)
Definition discard (v : value) : M unit :=
  match v with
  | Promise (Rejected e) => modify (fun s => set_unhandled (unhandled s ++ [e]) s)
  | _ => ret tt
  end.

(* ================================================================== *)
(** ** Diagnostics and the asset loader *)

(** [logIf(opts, ...args)], [log] being the truth of [opts?.log]. *)
Definition logIf (log : bool) (args : list logarg) : M unit :=
  if log
  then modify (fun s => set_console (console s ++ [LStr "[vjs-custom]" :: args]) s)
  else ret tt.

(** How reading the body of a response ends: [res.text()]. *)
Inductive body_read : Type :=
| BodyText (text : string)
| BodyError (e : error).

(** What the transport answers to [fetch(path, { cache: 'force-cache' })]. *)
Inductive fetch_outcome : Type :=
| NetworkError (e : error)
| Response (status : nat) (body : body_read).

(** [res.ok]: a status in 200..299. *)
Definition response_ok (status : nat) : bool :=
  (200 <=? status)%nat && (status <=? 299)%nat.

(** The call [fetch(path, ...)]: the request is issued. *)
Definition fetch (path : string) : M unit :=
  modify (fun s => set_requests (requests s ++ [path]) s).

(** The body of [loadSVG] from the answer of [fetch] on. *)
Definition loadSVG_resume (path : string) (log : bool) (r : fetch_outcome)
  : M (option string) :=
  try_catch
    (match r with
     | NetworkError e => throw e
     | Response status body =>
         if negb (response_ok status)
         then throw (Error ("HTTP " ++ nat_to_string status))
         else
           match body with
           | BodyText svgText => ret (Some svgText)
           | BodyError e => throw e
           end
     end)
    (fun err =>
       logIf log [LStr ("Failed to load SVG: " ++ path); LErr err] ;;
       ret None).

(** [loadSVG(path, opts)] when the transport answers [r]. *)
Definition loadSVG (path : string) (log : bool) (r : fetch_outcome)
  : M (option string) :=
  fetch path ;; loadSVG_resume path log r.

(** [setButtonSVG(el, svgText, sizeClass)]: the children of [el] after it. *)
Definition setButtonSVG (svgText : option string) (sizeClass : string)
  : list content :=
  match svgText with
  | None => []
  | Some t => if String.eqb t "" then [] else [Span sizeClass t]
  end.

(* ================================================================== *)
(** ** SVGIconButton *)

Definition icon_path (base iconName : string) : string :=
  base ++ "/" ++ iconName ++ ".svg".

(** [updateIcon(iconName)] up to its [await]: the dedup test, the write of
    [currentIcon], the call of [loadSVG], i.e. of [fetch].  The call
    answers its promise; the rest of the body runs in [settle] and cannot
    throw, so the promise never rejects. *)
Definition updateIcon (iconName : option string) : M value :=
  fun s =>
    match iconName with
    | None => (Normal (Promise Fulfilled), s)
    | Some name =>
        if String.eqb name "" || strict_eq name (currentIcon (this s))
        then (Normal (Promise Fulfilled), s)
        else
          let s1 := set_this (set_currentIcon (Some name) (this s)) s in
          let path := icon_path (iconBasePath (this s1)) name in
          let s2 := set_requests (requests s1 ++ [path]) s1 in
          let s3 := set_inflight
                      (inflight s2 ++ [mkLoad path (opt_log (opts (this s2))) (IconWaiter name)])
                      s2 in
          (Normal (Promise Fulfilled), s3)
    end.

(** [updateIcon] after its [await]: the fallback to text, or the icon. *)
Definition updateIcon_resume (iconName : string) (svg : option string) : M unit :=
  fun s =>
    let b := this s in
    if falsy svg
    then (Normal tt,
          set_this (set_el (set_textContent (or_else (opt_label (opts b)) iconName)) b) s)
    else (Normal tt, set_this (set_el (setButtonSVG svg "vjs-icon-svg") b) s).

(** The constructor, on the element the host built. *)
Definition new_SVGIconButton (options : Options) (host_el : list content) : M unit :=
  modify (set_this
            (mkButton options
                      (or_else (opt_iconBasePath options) "/img/icon")
                      None host_el)) ;;
  v <- updateIcon (opt_icon options) ;;
  discard v.

(** A click callback: [opts.onClick], called with the button as [this]. *)
Definition Callback : Type := M value.

(** [handleClick()]; [onClick] is [None] when [opts.onClick] is not a
    function. *)
Definition handleClick (onClick : option Callback) : M unit :=
  match onClick with
  | None => ret tt
  | Some cb =>
      try_catch
        (v <- cb ;; discard v)
        (fun err =>
           log <- gets (fun s => opt_log (opts (this s))) ;;
           logIf log [LStr "onClick error"; LErr err])
  end.

(* ================================================================== *)
(** ** Volume icon *)

Definition volumeIconFor (p : Player) : string :=
  if muted p || (volume p =? 0)%float then "audio_mute"
  else
    let v := volume p in
    if (v <=? 0.33)%float then "audio_low"
    else if (v <=? 0.66)%float then "audio_mid"
    else "audio_full".

(* ================================================================== *)
(** ** Big overlay *)

(** [setBigOverlaySVG(player, iconBasePath, name)] up to its [await]. *)
Definition setBigOverlaySVG (base name : string) : M value :=
  fun s =>
    match BigPlayButton (player s) with
    | None => (Normal (Promise Fulfilled), s)
    | Some _ =>
        let path := icon_path base name in
        let s1 := set_requests (requests s ++ [path]) s in
        (Normal (Promise Fulfilled),
         set_inflight (inflight s1 ++ [mkLoad path false OverlayWaiter]) s1)
    end.

(** [setBigOverlaySVG] after its [await]; [el] is the element fetched
    before it. *)
Definition setBigOverlaySVG_resume (svg : option string) : M unit :=
  fun s =>
    if falsy svg then (Normal tt, s)
    else
      match svg, BigPlayButton (player s) with
      | Some t, Some _ =>
          (Normal tt,
           set_player (set_BigPlayButton (Some [Span "vjs-big-button-svg" t]) (player s)) s)
      | _, _ => (Normal tt, s)
      end.

(* ================================================================== *)
(** ** Delivery of a transport answer *)

Fixpoint remove_nth {A : Type} (l : list A) (i : nat) : list A :=
  match l, i with
  | [], _ => []
  | _ :: t, O => t
  | h :: t, S j => h :: remove_nth t j
  end.

(** The transport answers the [i]-th pending fetch with [r]: [loadSVG]
    finishes and the function awaiting it goes on.  Were [loadSVG] to
    reject, the awaiting function would reject too, and no caller handles
    that promise. *)
Definition settle (i : nat) (r : fetch_outcome) (s : State) : State :=
  match nth_error (inflight s) i with
  | None => s
  | Some l =>
      let s1 := set_inflight (remove_nth (inflight s) i) s in
      match loadSVG_resume (load_path l) (load_log l) r s1 with
      | (Abrupt e, s2) => set_unhandled (unhandled s2 ++ [e]) s2
      | (Normal svg, s2) =>
          match load_waiter l with
          | IconWaiter name => snd (updateIcon_resume name svg s2)
          | OverlayWaiter => snd (setBigOverlaySVG_resume svg s2)
          end
      end
  end.

(** Deliveries in sequence. *)
Fixpoint settle_all (ds : list (nat * fetch_outcome)) (s : State) : State :=
  match ds with
  | [] => s
  | (i, r) :: ds' => settle_all ds' (settle i r s)
  end.

(* ================================================================== *)
(** ** Settings menu *)

Section Settings.

(** The string a number converts to in a template string (the engine's
    Number-to-String conversion). *)
Variable Number_toString : float -> string.

(** The tree the assignment to [menu.innerHTML] parses to (whitespace
    between the elements left out). *)
Definition settings_item (key title value_text : string) : node :=
  Elem "div" ["vjs-settings-item"] [("data-key", key)] []
       [ Elem "span" [] [] [] [Text title];
         Elem "span" ["value"] [] [] [Text value_text] ].

Definition settings_markup : list node :=
  [ Elem "h6" [] [] [] [Text "Settings"];
    settings_item "playbackRate" "Playback speed" "1.0x";
    settings_item "quality" "Quality" "Auto" ].

(** [ensureSettingsMenu(player)]: the reference of the menu under the
    player's root element. *)
Definition ensureSettingsMenu : M path :=
  fun s =>
    let kids := player_el (player s) in
    match querySelector "vjs-settings-menu" kids with
    | Some menu => (Normal menu, s)
    | None =>
        let menu := Elem "div" ["vjs-settings-menu"; "hidden"] []
                         [SettingsClick] settings_markup in
        (Normal [List.length kids],
         set_player (set_player_el (kids ++ [menu]) (player s)) s)
    end.

(** The new rate of the playback-speed row. *)
Definition next_rate (current : float) : float :=
  if (2 <=? current)%float then 1%float
  else (Math_round ((current + 0.25) * 100) / 100)%float.

(** [node.textContent = s] on an element. *)
Definition set_text (s : string) (n : node) : node :=
  match n with
  | Elem t cl a ls _ => Elem t cl a ls (if String.eqb s "" then [] else [Text s])
  | Text _ => Text s
  end.

(** The click listener of the menu, for a click on the element [target].
    [closest] looks at the target and its ancestors below the player's
    root. *)
Definition settings_click (target : path) : M unit :=
  fun s =>
    let kids := player_el (player s) in
    match closest "vjs-settings-item" kids target with
    | None => (Normal tt, s)
    | Some item =>
        match lookup kids item with
        | Some (Elem _ _ attrs _ item_kids) =>
            if strict_eq "playbackRate" (getAttribute "data-key" attrs)
            then
              let current := playbackRate (player s) in
              let next := next_rate current in
              let s1 := set_player (set_playbackRate next (player s)) s in
              match querySelector "value" item_kids with
              | None =>
                  (Abrupt (TypeError "Cannot set properties of null (setting 'textContent')"), s1)
              | Some v =>
                  (Normal tt,
                   set_player
                     (set_player_el
                        (update (player_el (player s1)) (item ++ v)
                                (set_text (Number_toString next ++ "x")))
                        (player s1))
                     s1)
              end
            else (Normal tt, s)
        | _ => (Normal tt, s)
        end
    end.

Definition run_listener (l : listener) (target : path) : M unit :=
  match l with
  | SettingsClick => settings_click target
  end.

(** The listeners a click on [p] reaches, the target's first, then those
    of its ancestors (bubbling). *)
Fixpoint listeners_on (ks : list node) (p : path) : list listener :=
  match p with
  | [] => []
  | i :: p' =>
      match nth_error ks i with
      | Some (Elem _ _ _ ls kids) => listeners_on kids p' ++ ls
      | _ => []
      end
  end.

(** A click of the user on the element [target]: every listener reached
    runs; an error thrown by one is reported as uncaught and the next
    one runs. *)
Fixpoint run_listeners (ls : list listener) (target : path) (s : State) : State :=
  match ls with
  | [] => s
  | l :: ls' =>
      match run_listener l target s with
      | (Normal _, s') => run_listeners ls' target s'
      | (Abrupt e, s') =>
          run_listeners ls' target (set_unhandled (unhandled s' ++ [e]) s')
      end
  end.

Definition click (target : path) (s : State) : State :=
  run_listeners (listeners_on (player_el (player s)) target) target s.

(** [menu.classList.toggle('hidden')] on the element at [menu]. *)
Definition toggle_hidden (menu : path) : M bool :=
  fun s =>
    match lookup (player_el (player s)) menu with
    | Some (Elem _ cl _ _ _) =>
        let r := toggle "hidden" cl in
        (Normal (fst r),
         set_player
           (set_player_el
              (update (player_el (player s)) menu
                      (fun n => match n with
                                | Elem t _ a ls k => Elem t (snd r) a ls k
                                | Text d => Text d
                                end))
              (player s))
           s)
    | _ => (Abrupt (TypeError "Cannot read properties of null (reading 'classList')"), s)
    end.

(** The gear button's [onClick]. *)
Definition gearBtn_onClick : Callback :=
  menu <- ensureSettingsMenu ;;
  toggled <- toggle_hidden menu ;;
  let open := negb toggled in
  v <- updateIcon (Some (if open then "gear_open" else "gear")) ;;
  discard v ;;
  ret Undefined.

End Settings.

(* ================================================================== *)
(** ** Picture-in-picture and fullscreen *)

(** The video element of the tech: its identity and, when it has the
    method, how a call of [requestPictureInPicture()] ends. *)
Record VideoEl : Type := mkVideoEl {
  video_id : string;
  requestPictureInPicture : option settlement
}.

(** The platform's [requestPictureInPicture()] and
    [exitPictureInPicture()]: a promise; on success the document's
    picture-in-picture element is set, respectively cleared. *)
Definition platform_requestPiP (v : VideoEl) (outcome : settlement) : M value :=
  fun s =>
    match outcome with
    | Fulfilled =>
        (Normal (Promise Fulfilled),
         set_document (mkDocument (Some (video_id v))
                                  (pictureInPictureEnabled (document s))) s)
    | Rejected e => (Normal (Promise (Rejected e)), s)
    end.

Definition platform_exitPiP (outcome : settlement) : M value :=
  fun s =>
    match outcome with
    | Fulfilled =>
        (Normal (Promise Fulfilled),
         set_document (mkDocument None (pictureInPictureEnabled (document s))) s)
    | Rejected e => (Normal (Promise (Rejected e)), s)
    end.

Definition pip_unsupported : error := Error "Picture-in-Picture not supported".

(** [enterPiP(videoEl)]; [videoEl] is [None] when [player.tech_?.el()] is
    [undefined]. *)
Definition enterPiP (videoEl : option VideoEl) : M value :=
  async
    (active <- gets (fun s => pictureInPictureElement (document s)) ;;
     match active with
     | Some _ => ret tt
     | None =>
         enabled <- gets (fun s => pictureInPictureEnabled (document s)) ;;
         if enabled
         then
           match videoEl with
           | None =>
               throw (TypeError "Cannot read properties of undefined (reading 'requestPictureInPicture')")
           | Some v =>
               match requestPictureInPicture v with
               | Some outcome => p <- platform_requestPiP v outcome ;; await p
               | None => throw pip_unsupported
               end
           end
         else throw pip_unsupported
     end).

(** [exitPiP()]. *)
Definition exitPiP (exit_outcome : settlement) : M value :=
  async
    (active <- gets (fun s => pictureInPictureElement (document s)) ;;
     match active with
     | Some _ => p <- platform_exitPiP exit_outcome ;; await p
     | None => ret tt
     end).

(** The picture-in-picture button's [onClick]; [log] is the plugin's
    [opts.log], [techEl] the element captured at setup. *)
Definition pipBtn_onClick (log : bool) (techEl : option VideoEl)
           (exit_outcome : settlement) : Callback :=
  async
    (try_catch
       (active <- gets (fun s => pictureInPictureElement (document s)) ;;
        let isActive := match active with Some _ => true | None => false end in
        if isActive
        then
          p <- exitPiP exit_outcome ;; await p ;;
          v <- updateIcon (Some "pip") ;; discard v
        else
          p <- enterPiP techEl ;; await p ;;
          v <- updateIcon (Some "pip_exit") ;; discard v)
       (fun err => logIf log [LStr "PiP error"; LErr err])).

(** A call into the host player: it answers a value or throws, and may
    change the player. *)
Definition HostCall : Type := Player -> completion value * Player.

Definition host_call (h : HostCall) : M value :=
  fun s => let r := h (player s) in (fst r, set_player (snd r) s).

(** The fullscreen button's [onClick]; [log] is the plugin's [opts.log]. *)
Definition fsBtn_onClick (log : bool) (exitFullscreen requestFullscreen : HostCall)
  : Callback :=
  try_catch
    (fs <- gets (fun s => isFullscreen (player s)) ;;
     if fs
     then
       r <- host_call exitFullscreen ;; discard r ;;
       v <- updateIcon (Some "full") ;; discard v
     else
       r <- host_call requestFullscreen ;; discard r ;;
       v <- updateIcon (Some "full_exit") ;; discard v)
    (fun err => logIf log [LStr "Fullscreen error"; LErr err]) ;;
  ret Undefined.

(* ================================================================== *)
(** ** Concrete pages used by the examples *)

(** The play/pause button as the plugin configures it, logging enabled. *)
Definition play_options : Options :=
  mkOptions (Some "/img/icon") (Some "Play/Pause") (Some "play") true.

(** The same button with the default [log: false]. *)
Definition quiet_options : Options :=
  mkOptions (Some "/img/icon") (Some "Fullscreen") (Some "full") false.

Definition host_children : list content :=
  [HostNode "vjs-icon-placeholder"; HostNode "vjs-control-text"].

Definition sample_player : Player :=
  mkPlayer false 1 false 1
           (Some [HostNode "vjs-icon-placeholder"])
           [ Elem "video" ["vjs-tech"] [] [] [];
             Elem "div" ["vjs-control-bar"] [] [] [] ].

(** A page where picture-in-picture is unsupported and nothing is in it. *)
Definition page (b : Button) : State :=
  mkState [] [] [] [] (mkDocument None false) sample_player b.

Definition fresh_page : State :=
  page (mkButton play_options "/img/icon" None host_children).

(** A page whose player has no [BigPlayButton] child. *)
Definition bare_page : State :=
  mkState [] [] [] [] (mkDocument None false)
          (mkPlayer false 1 false 1 None [])
          (mkButton play_options "/img/icon" None host_children).

(** The page once the button shows the icon ["play"]. *)
Definition play_page : State :=
  page (mkButton play_options "/img/icon" (Some "play")
                 [Span "vjs-icon-svg" "<svg/>"]).

(** The fullscreen button showing ["full"], logging on or off. *)
Definition fs_page (log : bool) : State :=
  page (mkButton (mkOptions (Some "/img/icon") (Some "Fullscreen") (Some "full") log)
                 "/img/icon" (Some "full") [Span "vjs-icon-svg" "<svg/>"]).

(** The picture-in-picture button showing ["pip"], logging on or off. *)
Definition pip_page (log : bool) : State :=
  page (mkButton (mkOptions (Some "/img/icon") (Some "Picture-in-Picture") (Some "pip") log)
                 "/img/icon" (Some "pip") [Span "vjs-icon-svg" "<svg/>"]).

(** Host calls: one that succeeds, one that throws, one that answers a
    promise the host rejects. *)
Definition host_ok : HostCall := fun p => (Normal (Promise Fulfilled), p).
Definition host_throws : HostCall := fun p => (Abrupt (HostError "denied"), p).
Definition host_rejects : HostCall :=
  fun p => (Normal (Promise (Rejected (HostError "denied"))), p).

(** A callback declared [async] whose body throws. *)
Definition rejecting_callback : Callback := async (throw (Error "boom")).

(** A callback that throws. *)
Definition throwing_callback : Callback := throw (Error "boom").

(** [n] applications of a function. *)
Fixpoint iterate {A : Type} (n : nat) (f : A -> A) (a : A) : A :=
  match n with
  | O => a
  | S k => f (iterate k f a)
  end.

(** The values [f] takes along [n] steps from [a]. *)
Fixpoint trajectory {A : Type} (n : nat) (f : A -> A) (a : A) : list A :=
  match n with
  | O => []
  | S k => f a :: trajectory k f (f a)
  end.

(** [n] calls of [ensureSettingsMenu] in a row: the references answered
    and the final state. *)
Fixpoint ensure_times (n : nat) (s : State) : list (completion path) * State :=
  match n with
  | O => ([], s)
  | S k =>
      let r := ensureSettingsMenu s in
      let rest := ensure_times k (snd r) in
      (fst r :: fst rest, snd rest)
  end.

(** The menu element when its class list is [cl] and the playback-speed
    row shows [value_text]. *)
Definition menu_showing (cl : list string) (value_text : string) : node :=
  Elem "div" cl [] [SettingsClick]
       [ Elem "h6" [] [] [] [Text "Settings"];
         settings_item "playbackRate" "Playback speed" value_text;
         settings_item "quality" "Quality" "Auto" ].

(** Number-to-String at the numbers the stepper reaches from 1.0; the
    examples need no other. *)
Definition toString_on_steps (x : float) : string :=
  if (x =? 1)%float then "1"
  else if (x =? 1.25)%float then "1.25"
  else if (x =? 1.5)%float then "1.5"
  else if (x =? 1.75)%float then "1.75"
  else if (x =? 2)%float then "2"
  else "?".

(** The player with a given mute flag and volume. *)
Definition with_volume (m : bool) (v : float) : Player :=
  mkPlayer m v false 1 None [].

(** The four-bucket table as the specification words it, on the pair of
    the mute flag and the volume: muted or volume 0, then up to 0.33, then
    up to 0.66, then the rest.  [volumeIconFor] is compared with it. *)
Definition spec_volume_table (m : bool) (v : float) : string :=
  if m then "audio_mute"
  else if (v =? 0)%float then "audio_mute"
  else if (v <=? 0.33)%float then "audio_low"
  else if (v <=? 0.66)%float then "audio_mid"
  else "audio_full".

(* ================================================================== *)
(** * Properties *)

(** The answers of the transport, by cases: a network error, a response
    with a failing or a successful status, its body read or not. *)
Ltac fetch_cases r :=
  let e := fresh "e" in
  let status := fresh "status" in
  let t := fresh "t" in
  destruct r as [e | status [t | e]];
  [ | destruct (response_ok status) .. ].

(** Unfold the loader down to the state monad. *)
Ltac unfold_loader :=
  unfold loadSVG, fetch, loadSVG_resume, try_catch, logIf, bind, modify, ret, throw.

(** ** Delivery of an answer: what it leaves alone *)

Lemma loadSVG_resume_frame (path : string) (log : bool) (r : fetch_outcome) (s : State) :
  let s' := snd (loadSVG_resume path log r s) in
  requests s' = requests s /\ inflight s' = inflight s /\
  unhandled s' = unhandled s /\ document s' = document s /\
  player s' = player s /\ this s' = this s.
Proof.
  unfold_loader. fetch_cases r; destruct log; cbn; repeat split; reflexivity.
Qed.

(** [loadSVG] always completes normally. *)
Lemma loadSVG_resume_normal (path : string) (log : bool) (r : fetch_outcome) (s : State) :
  exists svg, fst (loadSVG_resume path log r s) = Normal svg.
Proof.
  unfold_loader. fetch_cases r; destruct log; cbn; eexists; reflexivity.
Qed.

(** The value [loadSVG] answers depends on the transport's answer only. *)
Lemma loadSVG_resume_value (path path' : string) (log log' : bool)
      (r : fetch_outcome) (s s' : State) :
  fst (loadSVG_resume path log r s) = fst (loadSVG_resume path' log' r s').
Proof.
  unfold_loader. fetch_cases r; destruct log, log'; reflexivity.
Qed.

Lemma settle_frame (i : nat) (r : fetch_outcome) (s : State) :
  requests (settle i r s) = requests s /\
  currentIcon (this (settle i r s)) = currentIcon (this s) /\
  unhandled (settle i r s) = unhandled s /\
  document (settle i r s) = document s.
Proof.
  unfold settle.
  destruct (nth_error (inflight s) i) as [l |]; [ | repeat split; reflexivity ].
  set (s1 := set_inflight (remove_nth (inflight s) i) s).
  destruct (loadSVG_resume_normal (load_path l) (load_log l) r s1) as [svg Hsvg].
  pose proof (loadSVG_resume_frame (load_path l) (load_log l) r s1) as Hf.
  destruct (loadSVG_resume (load_path l) (load_log l) r s1) as [c s2].
  cbn in Hsvg, Hf. subst c.
  destruct Hf as (Hr & _ & Hu & Hd & _ & Ht).
  destruct (load_waiter l) as [name |].
  - unfold updateIcon_resume. destruct (falsy svg); cbn;
      rewrite Hr, Hu, Hd, Ht; repeat split; reflexivity.
  - unfold setBigOverlaySVG_resume.
    destruct (falsy svg); cbn; [ rewrite Hr, Hu, Hd, Ht; repeat split; reflexivity | ].
    destruct svg as [t |]; [ destruct (BigPlayButton (player s2)) | ]; cbn;
      rewrite Hr, Hu, Hd, Ht; repeat split; reflexivity.
Qed.

Lemma settle_all_frame (ds : list (nat * fetch_outcome)) (s : State) :
  requests (settle_all ds s) = requests s /\
  currentIcon (this (settle_all ds s)) = currentIcon (this s).
Proof.
  revert s. induction ds as [| [i r] ds IH]; intro s; cbn; [ split; reflexivity | ].
  destruct (IH (settle i r s)) as [Hr Hc].
  destruct (settle_frame i r s) as (Hr' & Hc' & _).
  rewrite Hr, Hc, Hr', Hc'. split; reflexivity.
Qed.

(** The last of [l ++ [x]] is at index [length l]; removing it gives [l]. *)
Lemma nth_error_last {A : Type} (l : list A) (x : A) :
  nth_error (l ++ [x]) (List.length l) = Some x.
Proof. induction l as [| h t IH]; cbn; [ reflexivity | exact IH ]. Qed.

Lemma remove_nth_last {A : Type} (l : list A) (x : A) :
  remove_nth (l ++ [x]) (List.length l) = l.
Proof. induction l as [| h t IH]; cbn; [ reflexivity | now rewrite IH ]. Qed.

(** ** The identity dedup of [updateIcon] *)

Lemma updateIcon_same (s : State) (name : string) :
  currentIcon (this s) = Some name ->
  updateIcon (Some name) s = (Normal (Promise Fulfilled), s).
Proof.
  intro H. unfold updateIcon. rewrite H. cbn.
  rewrite String.eqb_refl, orb_true_r. reflexivity.
Qed.

(** C1.  A call of [updateIcon] with an absent or empty name, or with the
    name [currentIcon] already holds, returns with the state untouched: no
    field written, no fetch issued, no load pending.  Hence, of two
    consecutive calls with the same name, whatever transport answers are
    delivered in between, the second changes nothing and the two together
    issue at most one fetch. *)
Theorem updateIcon_dedup :
  forall (s : State) (n : option string),
    ((falsy n = true \/ n = currentIcon (this s)) ->
     updateIcon n s = (Normal (Promise Fulfilled), s))
    /\
    (forall ds : list (nat * fetch_outcome),
        let s1 := snd (updateIcon n s) in
        let s2 := settle_all ds s1 in
        updateIcon n s2 = (Normal (Promise Fulfilled), s2)
        /\ exists extra : list string,
             requests (snd (updateIcon n s2)) = requests s ++ extra
             /\ (List.length extra <= 1)%nat).
Proof.
  intros s n. split.
  - intros [Hf | He].
    + destruct n as [name |]; [ | reflexivity ].
      cbn in Hf. unfold updateIcon. rewrite Hf. reflexivity.
    + destruct n as [name |]; [ | reflexivity ].
      apply updateIcon_same. symmetry. exact He.
  - intros ds s1 s2.
    destruct (settle_all_frame ds s1) as [Hr Hc]. fold s2 in Hr, Hc.
    destruct n as [name |].
    + assert (Hcase :
                (s1 = s /\ (String.eqb name "" || strict_eq name (currentIcon (this s))) = true)
                \/ (currentIcon (this s1) = Some name
                    /\ requests s1 = requests s ++ [icon_path (iconBasePath (this s)) name])).
      { subst s1. unfold updateIcon.
        destruct (String.eqb name "" || strict_eq name (currentIcon (this s))) eqn:E.
        - left. split; reflexivity.
        - right. cbn. split; reflexivity. }
      destruct Hcase as [[Hs Hcond] | [Hcur Hreq]].
      * assert (Hno : updateIcon (Some name) s2 = (Normal (Promise Fulfilled), s2)).
        { unfold updateIcon. rewrite Hc, Hs, Hcond. reflexivity. }
        split; [ exact Hno | ].
        exists []. rewrite Hno. cbn. rewrite Hr, Hs, app_nil_r. split; [ reflexivity | lia ].
      * assert (Hno : updateIcon (Some name) s2 = (Normal (Promise Fulfilled), s2)).
        { apply updateIcon_same. rewrite Hc. exact Hcur. }
        split; [ exact Hno | ].
        exists [icon_path (iconBasePath (this s)) name].
        rewrite Hno. cbn. rewrite Hr, Hreq. split; [ reflexivity | lia ].
    + split; [ reflexivity | ].
      exists []. cbn. rewrite Hr. subst s1. cbn. rewrite app_nil_r.
      split; [ reflexivity | lia ].
Qed.

(** The dedup at work: the button already shows ["play"]; and a call
    without a name on a new button. *)
Lemma updateIcon_dedup_witness :
  updateIcon (Some "play") play_page = (Normal (Promise Fulfilled), play_page)
  /\ updateIcon None fresh_page = (Normal (Promise Fulfilled), fresh_page).
Proof.
  split.
  - apply (proj1 (updateIcon_dedup play_page (Some "play"))).
    right. reflexivity.
  - apply (proj1 (updateIcon_dedup fresh_page None)).
    left. reflexivity.
Defined.

(** ** The asset loader *)

(** C4.  [loadSVG] never throws: whatever the transport answers, the call
    issues its fetch and completes normally.  A network error, a status
    outside 200..299 or a failed read of the body give [null], with one
    console line exactly when logging is enabled; a successful response
    gives the text that was fetched and logs nothing. *)
Theorem loadSVG_never_raises :
  forall (path : string) (log : bool) (r : fetch_outcome) (s : State),
    let out := loadSVG path log r s in
    let failed (e : error) :=
        fst out = Normal None
        /\ console (snd out)
           = console s ++
               (if log
                then [[LStr "[vjs-custom]"; LStr ("Failed to load SVG: " ++ path); LErr e]]
                else []) in
    (exists svg, fst out = Normal svg)
    /\ requests (snd out) = requests s ++ [path]
    /\ match r with
       | NetworkError e => failed e
       | Response status body =>
           if response_ok status
           then match body with
                | BodyText svgText =>
                    fst out = Normal (Some svgText) /\ console (snd out) = console s
                | BodyError e => failed e
                end
           else failed (Error ("HTTP " ++ nat_to_string status))
       end.
Proof.
  intros path log r s.
  unfold_loader.
  fetch_cases r; destruct log; cbn; rewrite ?app_nil_r;
    (split; [ eexists; reflexivity | repeat split; reflexivity ]).
Qed.

(** ** Fallback to text *)

Lemma or_else_nonempty (a : option string) (b : string) :
  b <> "" -> or_else a b <> "".
Proof.
  intro Hb. unfold or_else.
  destruct a as [t |]; [ | exact Hb ].
  destruct (String.eqb t "") eqn:E; [ exact Hb | ].
  apply String.eqb_neq. exact E.
Qed.

(** What [settle] does to the load a call has just registered. *)
Lemma settle_last (s : State) (l : load) (r : fetch_outcome) :
  settle (List.length (inflight s)) r (set_inflight (inflight s ++ [l]) s)
  = match loadSVG_resume (load_path l) (load_log l) r s with
    | (Abrupt e, s2) => set_unhandled (unhandled s2 ++ [e]) s2
    | (Normal svg, s2) =>
        match load_waiter l with
        | IconWaiter name => snd (updateIcon_resume name svg s2)
        | OverlayWaiter => snd (setBigOverlaySVG_resume svg s2)
        end
    end.
Proof.
  unfold settle. cbn [inflight set_inflight].
  rewrite nth_error_last, remove_nth_last.
  destruct s; reflexivity.
Qed.

(** Deliver the answer [r] to the load the goal has just registered on the
    pending loads of [s]. *)
Ltac settle_registered s r :=
  match goal with
  | |- context [settle _ r (set_inflight (inflight ?a ++ [?l]) ?b)] =>
      change (settle (List.length (inflight s)) r (set_inflight (inflight a ++ [l]) b))
        with (settle (List.length (inflight a)) r (set_inflight (inflight a ++ [l]) a));
      rewrite (settle_last a l r)
  end.

(** C5.  When [updateIcon] is called with a non-empty name other than
    [currentIcon] and the loader answers [null] for it, the button's element
    ends up holding exactly one text node, and that text is not empty: the
    configured label when there is a non-empty one, else the icon name. *)
Theorem updateIcon_failure_shows_text :
  forall (s : State) (name : string) (r : fetch_outcome),
    name <> "" ->
    currentIcon (this s) <> Some name ->
    fst (loadSVG (icon_path (iconBasePath (this s)) name)
                 (opt_log (opts (this s))) r s) = Normal None ->
    let s1 := snd (updateIcon (Some name) s) in
    let s2 := settle (List.length (inflight s)) r s1 in
    let text := or_else (opt_label (opts (this s))) name in
    el (this s2) = [TextNode text]
    /\ String.eqb text "" = false
    /\ (forall l, opt_label (opts (this s)) = Some l -> l <> "" -> text = l)
    /\ (opt_label (opts (this s)) = None \/ opt_label (opts (this s)) = Some "" ->
        text = name).
Proof.
  intros s name r Hname Hcur Hnull s1 s2 text.
  assert (Htext : String.eqb text "" = false).
  { apply String.eqb_neq. apply or_else_nonempty. exact Hname. }
  split; [ | split; [ exact Htext | split ] ].
  - subst s2 s1. unfold updateIcon.
    assert (E1 : String.eqb name "" = false) by (apply String.eqb_neq; exact Hname).
    assert (E2 : strict_eq name (currentIcon (this s)) = false).
    { unfold strict_eq. destruct (currentIcon (this s)) as [c |]; [ | reflexivity ].
      apply String.eqb_neq. intro H. apply Hcur. now subst. }
    rewrite E1, E2. cbn [orb snd].
    settle_registered s r.
    cbn [load_path load_log load_waiter].
    match goal with
    | |- context [loadSVG_resume ?p ?lg r ?st] =>
        pose proof (loadSVG_resume_frame p lg r st) as Hf;
        pose proof (loadSVG_resume_value p (icon_path (iconBasePath (this s)) name)
                                         lg (opt_log (opts (this s))) r st
                                         (set_requests
                                            (requests s ++ [icon_path (iconBasePath (this s)) name]) s)) as Hv;
        destruct (loadSVG_resume p lg r st) as [c s3]
    end.
    cbn in Hf, Hv. destruct Hf as (_ & _ & _ & _ & _ & Ht).
    unfold loadSVG, fetch, bind, modify in Hnull. cbn in Hnull.
    rewrite Hnull in Hv. subst c.
    unfold updateIcon_resume. cbn. rewrite Ht. cbn.
    unfold set_textContent. fold text. rewrite Htext. reflexivity.
  - intros l Hl Hne. subst text. rewrite Hl. unfold or_else.
    apply String.eqb_neq in Hne. rewrite Hne. reflexivity.
  - intros [Hl | Hl]; subst text; rewrite Hl; reflexivity.
Qed.

(** A 404 for the first icon of the play/pause button leaves its label. *)
Lemma updateIcon_failure_shows_text_witness :
  el (this (settle 0 (Response 404 (BodyText "Not Found"))
                   (snd (updateIcon (Some "play") fresh_page))))
  = [TextNode (or_else (opt_label play_options) "play")]
  /\ or_else (opt_label play_options) "play" = "Play/Pause".
Proof.
  assert (H1 : "play" <> "") by discriminate.
  assert (H2 : currentIcon (this fresh_page) <> Some "play") by discriminate.
  assert (H3 : fst (loadSVG (icon_path (iconBasePath (this fresh_page)) "play")
                            (opt_log (opts (this fresh_page)))
                            (Response 404 (BodyText "Not Found")) fresh_page)
               = Normal None) by reflexivity.
  split.
  - exact (proj1 (updateIcon_failure_shows_text
                    fresh_page "play" (Response 404 (BodyText "Not Found")) H1 H2 H3)).
  - refine (proj1 (proj2 (proj2 (updateIcon_failure_shows_text
                                   fresh_page "play"
                                   (Response 404 (BodyText "Not Found")) H1 H2 H3)))
                  "Play/Pause" _ _).
    + reflexivity.
    + discriminate.
Defined.

(** ** The big overlay *)

(** C10.  [setBigOverlaySVG] writes nothing when it cannot show an icon.
    With no [BigPlayButton] child the call leaves the whole state as it
    was, no fetch issued.  With one, when the loader answers [null] for
    the requested asset, the player (so the overlay's markup), the
    button, the console and the unhandled rejections are as before:
    the overlay keeps what it showed and no text replaces it. *)
Theorem setBigOverlaySVG_failure_keeps_markup :
  forall (s : State) (base name : string),
    (BigPlayButton (player s) = None ->
     setBigOverlaySVG base name s = (Normal (Promise Fulfilled), s))
    /\
    (forall r : fetch_outcome,
        fst (loadSVG (icon_path base name) false r s) = Normal None ->
        let s1 := snd (setBigOverlaySVG base name s) in
        let s2 := settle (List.length (inflight s)) r s1 in
        player s2 = player s /\ this s2 = this s
        /\ console s2 = console s /\ unhandled s2 = unhandled s
        /\ inflight s2 = inflight s).
Proof.
  intros s base name. split.
  - intro H. unfold setBigOverlaySVG. rewrite H. reflexivity.
  - intros r Hnull s1 s2. subst s2 s1. unfold setBigOverlaySVG.
    destruct (BigPlayButton (player s)) as [big |] eqn:Hbig.
    + cbn [snd].
      settle_registered s r.
      cbn [load_path load_log load_waiter].
      unfold loadSVG, fetch, bind, modify in Hnull. cbn in Hnull.
      revert Hnull. unfold_loader.
      fetch_cases r; cbn; intro Hnull; try discriminate Hnull;
        repeat split; reflexivity.
    + cbn [snd]. unfold settle.
      assert (Hn : nth_error (inflight s) (List.length (inflight s)) = None)
        by (apply nth_error_None; lia).
      rewrite Hn. repeat split; reflexivity.
Qed.

(** A 404 for ["bigpause"] leaves the overlay of the sample player, and a
    player without overlay is not touched at all. *)
Lemma setBigOverlaySVG_failure_keeps_markup_witness :
  player (settle 0 (Response 404 (BodyText "Not Found"))
                 (snd (setBigOverlaySVG "/img/icon" "bigpause" fresh_page)))
  = player fresh_page
  /\ setBigOverlaySVG "/img/icon" "bigpause" bare_page
     = (Normal (Promise Fulfilled), bare_page).
Proof.
  split.
  - refine (proj1 (proj2 (setBigOverlaySVG_failure_keeps_markup
                            fresh_page "/img/icon" "bigpause")
                     (Response 404 (BodyText "Not Found")) _)).
    reflexivity.
  - refine (proj1 (setBigOverlaySVG_failure_keeps_markup
                     bare_page "/img/icon" "bigpause") _).
    reflexivity.
Defined.

(** ** The volume icon *)

(** C2, as the code has it.  The icon is a function of the mute flag and
    the volume alone and follows the four-bucket table: ["audio_mute"] when
    muted or at volume 0, else ["audio_low"] up to 0.33, else ["audio_mid"]
    up to 0.66, else ["audio_full"].  The boundaries 0.33 and 0.66 are the
    inclusive upper bounds of their buckets: they belong to ["audio_low"]
    and ["audio_mid"], every volume of those buckets is at most the
    boundary, and the next number above the boundary is in the next bucket.
    Volume 0 is ["audio_mute"], the least positive number ["audio_low"],
    volume 1 ["audio_full"]. *)
Theorem volumeIconFor_buckets :
  forall p : Player,
    let m := muted p in
    let v := volume p in
    volumeIconFor p = spec_volume_table m v
    /\ (volumeIconFor p = "audio_mute" <-> m = true \/ (v =? 0)%float = true)
    /\ (volumeIconFor p = "audio_low" <->
        m = false /\ (v =? 0)%float = false /\ (v <=? 0.33)%float = true)
    /\ (volumeIconFor p = "audio_mid" <->
        m = false /\ (v =? 0)%float = false /\ (v <=? 0.33)%float = false
        /\ (v <=? 0.66)%float = true)
    /\ (volumeIconFor p = "audio_full" <->
        m = false /\ (v =? 0)%float = false /\ (v <=? 0.33)%float = false
        /\ (v <=? 0.66)%float = false)
    /\ map (fun x => volumeIconFor (with_volume false x))
           [0; next_up 0; 0.33; next_up 0.33; 0.66; next_up 0.66; 1]%float
       = ["audio_mute"; "audio_low"; "audio_low"; "audio_mid"; "audio_mid";
          "audio_full"; "audio_full"]
    /\ map (fun x => volumeIconFor (with_volume true x)) [0; 0.33; 0.66; 1]%float
       = ["audio_mute"; "audio_mute"; "audio_mute"; "audio_mute"].
Proof.
  intros p m v. subst m v.
  unfold volumeIconFor, spec_volume_table.
  destruct (muted p), (volume p =? 0)%float, (volume p <=? 0.33)%float,
    (volume p <=? 0.66)%float; cbn [orb];
    (split; [ reflexivity | ]);
    repeat (split; [ split; intro H;
                       repeat match goal with
                              | H : _ /\ _ |- _ => destruct H
                              | H : _ \/ _ |- _ => destruct H
                              end;
                       try discriminate; try reflexivity; auto | ]);
    split; vm_compute; reflexivity.
Qed.

(** C2, as stated: 0.33 and 0.66 are not lower bounds of their buckets.
    Volume 0.33 shows ["audio_low"] and so does the smaller 0.1; volume 0.66
    shows ["audio_mid"] and so does the smaller 0.5; and 1 is above 0.9,
    which already shows ["audio_full"]. *)
Lemma volumeIconFor_boundary_not_lower_bound :
  volumeIconFor (with_volume false 0.33) = "audio_low"
  /\ volumeIconFor (with_volume false 0.1) = "audio_low"
  /\ (0.1 <? 0.33)%float = true
  /\ volumeIconFor (with_volume false 0.66) = "audio_mid"
  /\ volumeIconFor (with_volume false 0.5) = "audio_mid"
  /\ (0.5 <? 0.66)%float = true
  /\ volumeIconFor (with_volume false 1) = "audio_full"
  /\ volumeIconFor (with_volume false 0.9) = "audio_full"
  /\ (0.9 <? 1)%float = true.
Proof. repeat split; vm_compute; reflexivity. Qed.

(** ** Click dispatch *)

(** C3, as the code has it.  [handleClick] never throws to its caller.  An
    error the callback throws while it runs is caught; it is logged when
    the button's [log] option is on and dropped without a trace when it is
    off.  The value the callback returns is dropped: when it is a promise
    that rejects (an [async] callback whose body throws), nothing catches
    or logs the rejection.  A second click runs its callback on the state
    the first one left. *)
Theorem handleClick_catches_throws :
  forall (cb : Callback) (s : State),
    (exists s', handleClick (Some cb) s = (Normal tt, s'))
    /\ (forall e s1, cb s = (Abrupt e, s1) ->
        handleClick (Some cb) s
        = (Normal tt,
           if opt_log (opts (this s1))
           then set_console
                  (console s1 ++ [[LStr "[vjs-custom]"; LStr "onClick error"; LErr e]]) s1
           else s1))
    /\ (forall e s1, cb s = (Normal (Promise (Rejected e)), s1) ->
        handleClick (Some cb) s
        = (Normal tt, set_unhandled (unhandled s1 ++ [e]) s1))
    /\ (forall s1, cb s = (Normal Undefined, s1) \/ cb s = (Normal (Promise Fulfilled), s1) ->
        handleClick (Some cb) s = (Normal tt, s1))
    /\ (forall cb2 : Callback,
        (handleClick (Some cb) ;; handleClick (Some cb2)) s
        = handleClick (Some cb2) (snd (handleClick (Some cb) s))).
Proof.
  intros cb s.
  assert (Hnormal : exists s', handleClick (Some cb) s = (Normal tt, s')).
  { unfold handleClick, try_catch, bind, discard, logIf, gets, modify, ret.
    destruct (cb s) as [[v | e] s1].
    - destruct v as [| [| e]]; eexists; reflexivity.
    - destruct (opt_log (opts (this s1))); eexists; reflexivity. }
  split; [ exact Hnormal | ].
  repeat split.
  - intros e s1 H.
    unfold handleClick, try_catch, bind, discard, logIf, gets, modify, ret.
    rewrite H. destruct (opt_log (opts (this s1))); reflexivity.
  - intros e s1 H.
    unfold handleClick, try_catch, bind, discard, modify. rewrite H. reflexivity.
  - intros s1 [H | H];
      unfold handleClick, try_catch, bind, discard, ret; rewrite H; reflexivity.
  - intro cb2. destruct Hnormal as [s' Hs'].
    unfold bind at 1. rewrite Hs'. reflexivity.
Qed.

(** On a button with logging on: a callback that throws leaves one console
    line and nothing is thrown on; a callback that answers a rejected
    promise leaves the rejection unhandled; one that returns leaves the
    state it produced. *)
Lemma handleClick_catches_throws_witness :
  handleClick (Some throwing_callback) fresh_page
  = (Normal tt,
     set_console [[LStr "[vjs-custom]"; LStr "onClick error"; LErr (Error "boom")]]
                 fresh_page)
  /\ handleClick (Some rejecting_callback) fresh_page
     = (Normal tt, set_unhandled [Error "boom"] fresh_page)
  /\ handleClick (Some (ret Undefined)) fresh_page = (Normal tt, fresh_page).
Proof.
  split; [ | split ].
  - refine (proj1 (proj2 (handleClick_catches_throws throwing_callback fresh_page))
                  (Error "boom") fresh_page _).
    reflexivity.
  - refine (proj1 (proj2 (proj2 (handleClick_catches_throws rejecting_callback fresh_page)))
                  (Error "boom") fresh_page _).
    reflexivity.
  - refine (proj1 (proj2 (proj2 (proj2 (handleClick_catches_throws
                                          (ret Undefined) fresh_page))))
                  fresh_page _).
    left. reflexivity.
Defined.

(** C3, as stated: the rejection of an [async] callback is not caught at
    the dispatch boundary.  With logging on, the click of a button whose
    callback rejects leaves the console empty and the rejection unhandled;
    and with logging off a thrown error is not logged either. *)
Lemma handleClick_misses_rejection :
  console (snd (handleClick (Some rejecting_callback) fresh_page)) = []
  /\ unhandled (snd (handleClick (Some rejecting_callback) fresh_page)) = [Error "boom"]
  /\ opt_log (opts (this fresh_page)) = true
  /\ console (snd (handleClick (Some throwing_callback) (fs_page false))) = [].
Proof. repeat split; reflexivity. Qed.

(** ** Fullscreen *)

Lemma updateIcon_sets (s : State) (name : string) :
  name <> "" ->
  exists s', updateIcon (Some name) s = (Normal (Promise Fulfilled), s')
             /\ currentIcon (this s') = Some name.
Proof.
  intro Hne. unfold updateIcon.
  destruct (String.eqb name "" || strict_eq name (currentIcon (this s))) eqn:E.
  - exists s. split; [ reflexivity | ].
    apply orb_true_iff in E. destruct E as [E | E].
    + apply String.eqb_eq in E. contradiction.
    + unfold strict_eq in E. destruct (currentIcon (this s)) as [c |]; [ | discriminate ].
      apply String.eqb_eq in E. now subst.
  - eexists. split; reflexivity.
Qed.

Lemma updateIcon_console (n : option string) (s : State) :
  console (snd (updateIcon n s)) = console s.
Proof.
  unfold updateIcon. destruct n as [name |]; [ | reflexivity ].
  destruct (String.eqb name "" || strict_eq name (currentIcon (this s))); reflexivity.
Qed.

Lemma discard_normal (v : value) (s : State) :
  exists s', discard v s = (Normal tt, s')
             /\ console s' = console s /\ this s' = this s.
Proof.
  destruct v as [| [| e]]; cbn; eexists; repeat split; reflexivity.
Qed.

(** C6, as the code has it.  When the host's [requestFullscreen] (or
    [exitFullscreen], in fullscreen) throws, the handler catches the error,
    logs it when the plugin's [log] option is on, and [currentIcon] is what
    it was before the click.  When the call returns without throwing, the
    handler goes on to [updateIcon] and [currentIcon] is the flipped icon;
    a promise answered by the host is dropped unobserved.  Either way the
    handler returns normally, and so does [handleClick]. *)
Theorem fsBtn_click_flips_unless_thrown :
  forall (log : bool) (exitFullscreen requestFullscreen : HostCall) (s : State),
    let call := if isFullscreen (player s) then exitFullscreen else requestFullscreen in
    let flipped := if isFullscreen (player s) then "full" else "full_exit" in
    let click := fsBtn_onClick log exitFullscreen requestFullscreen in
    (forall e p', call (player s) = (Abrupt e, p') ->
        let s1 := set_player p' s in
        click s
        = (Normal Undefined,
           if log
           then set_console
                  (console s1 ++ [[LStr "[vjs-custom]"; LStr "Fullscreen error"; LErr e]]) s1
           else s1)
        /\ currentIcon (this (snd (click s))) = currentIcon (this s)
        /\ requests (snd (click s)) = requests s)
    /\ (forall v p', call (player s) = (Normal v, p') ->
        exists s', click s = (Normal Undefined, s')
                   /\ currentIcon (this s') = Some flipped
                   /\ console s' = console s)
    /\ handleClick (Some click) s = (Normal tt, snd (click s)).
Proof.
  intros log exitFs reqFs s call flipped click.
  assert (Hthrown :
            forall e p', call (player s) = (Abrupt e, p') ->
                         let s1 := set_player p' s in
                         click s
                         = (Normal Undefined,
                            if log
                            then set_console
                                   (console s1 ++ [[LStr "[vjs-custom]";
                                                    LStr "Fullscreen error"; LErr e]]) s1
                            else s1)
                         /\ currentIcon (this (snd (click s))) = currentIcon (this s)
                         /\ requests (snd (click s)) = requests s).
  { subst call flipped click.
    unfold fsBtn_onClick, try_catch, bind, gets, host_call, logIf, modify, ret.
    intros e p' H.
    destruct (isFullscreen (player s)); rewrite H; cbn; destruct log; cbn;
      repeat split; reflexivity. }
  assert (Hreturned :
            forall v p', call (player s) = (Normal v, p') ->
                         exists s', click s = (Normal Undefined, s')
                                    /\ currentIcon (this s') = Some flipped
                                    /\ console s' = console s).
  { subst call flipped click.
    unfold fsBtn_onClick, try_catch, bind, gets, host_call, logIf, modify, ret.
    intros v p' H.
    assert (Hgo : forall (icon : string) (s0 : State),
               icon <> "" -> console s0 = console s ->
               exists s', (let (c, s'0) :=
                             let (c, s'0) := updateIcon (Some icon) s0 in
                             match c with
                             | Normal a => discard a s'0
                             | Abrupt e => (Abrupt e, s'0)
                             end in
                           match c with
                           | Normal a => (Normal a, s'0)
                           | Abrupt e => (Abrupt e, s'0)
                           end) = (Normal tt, s')
                          /\ currentIcon (this s') = Some icon
                          /\ console s' = console s).
    { intros icon s0 Hne Hs0.
      destruct (updateIcon_sets s0 icon Hne) as (s2 & Hu & Hc).
      pose proof (updateIcon_console (Some icon) s0) as Hk.
      rewrite Hu in Hk |- *. cbn in Hk |- *.
      exists s2. split; [ reflexivity | split; [ exact Hc | congruence ] ]. }
    destruct (discard_normal v (set_player p' s)) as (s1 & D & Dc & _).
    cbn in Dc.
    destruct (isFullscreen (player s)); rewrite H; cbn [fst snd]; rewrite D.
    + destruct (Hgo "full" s1) as (s2 & E & Hc & Hk); [ discriminate | exact Dc | ].
      exists s2. split; [ | split; assumption ].
      revert E. destruct (updateIcon (Some "full") s1) as [[a | e0] sa]; cbn.
      * destruct (discard a sa) as [[[] | e1] sb]; intro E; inversion E; reflexivity.
      * intro E; discriminate E.
    + destruct (Hgo "full_exit" s1) as (s2 & E & Hc & Hk); [ discriminate | exact Dc | ].
      exists s2. split; [ | split; assumption ].
      revert E. destruct (updateIcon (Some "full_exit") s1) as [[a | e0] sa]; cbn.
      * destruct (discard a sa) as [[[] | e1] sb]; intro E; inversion E; reflexivity.
      * intro E; discriminate E. }
  split; [ exact Hthrown | split; [ exact Hreturned | ] ].
  assert (Hn : exists s', click s = (Normal Undefined, s')).
  { destruct (call (player s)) as [[v | e] p'] eqn:Hcall.
    - destruct (Hreturned v p' eq_refl) as (s' & Hs' & _). exists s'. exact Hs'.
    - destruct (Hthrown e p' eq_refl) as (Hs' & _). eexists. exact Hs'. }
  destruct Hn as [s' Hs'].
  unfold handleClick, try_catch, bind. rewrite Hs'. reflexivity.
Qed.

(** A request the host refuses by throwing, logging on: the icon stays
    ["full"]. *)
Lemma fsBtn_click_flips_unless_thrown_witness :
  currentIcon (this (snd (fsBtn_onClick true host_ok host_throws (fs_page true))))
  = Some "full"
  /\ exists s', fsBtn_onClick true host_ok host_ok (fs_page true) = (Normal Undefined, s')
                /\ currentIcon (this s') = Some "full_exit"
                /\ console s' = [].
Proof.
  split.
  - refine (proj1 (proj2 (proj1 (fsBtn_click_flips_unless_thrown
                                   true host_ok host_throws (fs_page true))
                                (HostError "denied") sample_player _))).
    reflexivity.
  - refine (proj1 (proj2 (fsBtn_click_flips_unless_thrown
                            true host_ok host_ok (fs_page true)))
                  (Promise Fulfilled) sample_player _).
    reflexivity.
Defined.

(** C6, as stated: a fullscreen request that fails by a rejected promise
    does not leave the icon.  With logging on and the button showing
    ["full"], the click flips [currentIcon] to ["full_exit"], logs nothing
    and leaves the rejection unhandled; and with the default [log: false]
    a request that throws is caught but not logged. *)
Lemma fsBtn_click_rejected_request_flips :
  let s' := snd (handleClick (Some (fsBtn_onClick true host_ok host_rejects)) (fs_page true)) in
  isFullscreen (player (fs_page true)) = false
  /\ currentIcon (this (fs_page true)) = Some "full"
  /\ currentIcon (this s') = Some "full_exit"
  /\ console s' = []
  /\ unhandled s' = [HostError "denied"]
  /\ console (snd (handleClick (Some (fsBtn_onClick false host_ok host_throws))
                               (fs_page false))) = [].
Proof. repeat split; reflexivity. Qed.

(** ** Picture-in-picture *)

(** C7, as the code has it.  With no element in picture-in-picture and the
    platform not supporting it (the document says it is disabled, or the
    video element has no [requestPictureInPicture]), [enterPiP] rejects
    with the error "Picture-in-Picture not supported".  The click handler
    catches it: its promise is fulfilled, [handleClick] returns normally,
    the button ([currentIcon], element) and everything but the console are
    as before the click, and the console gets one line when the plugin's
    [log] option is on and none when it is off. *)
Theorem pipBtn_click_unsupported :
  forall (log : bool) (techEl : option VideoEl) (exit_outcome : settlement) (s : State),
    pictureInPictureElement (document s) = None ->
    (pictureInPictureEnabled (document s) = false
     \/ exists v, techEl = Some v /\ requestPictureInPicture v = None) ->
    let s' := if log
              then set_console
                     (console s ++ [[LStr "[vjs-custom]"; LStr "PiP error";
                                     LErr (Error "Picture-in-Picture not supported")]]) s
              else s in
    enterPiP techEl s
    = (Normal (Promise (Rejected (Error "Picture-in-Picture not supported"))), s)
    /\ pipBtn_onClick log techEl exit_outcome s = (Normal (Promise Fulfilled), s')
    /\ handleClick (Some (pipBtn_onClick log techEl exit_outcome)) s = (Normal tt, s')
    /\ this s' = this s
    /\ requests s' = requests s
    /\ unhandled s' = unhandled s.
Proof.
  intros log techEl exit_outcome s Hnone Hunsup s'.
  assert (He : enterPiP techEl s
               = (Normal (Promise (Rejected (Error "Picture-in-Picture not supported"))), s)).
  { unfold enterPiP, async, bind, gets, throw. rewrite Hnone.
    destruct Hunsup as [Hoff | (v & Hv & Hm)].
    - rewrite Hoff. reflexivity.
    - subst techEl. rewrite Hm.
      destruct (pictureInPictureEnabled (document s)); reflexivity. }
  assert (Hc : pipBtn_onClick log techEl exit_outcome s = (Normal (Promise Fulfilled), s')).
  { unfold pipBtn_onClick, async, try_catch.
    unfold bind at 1. unfold gets at 1. rewrite Hnone.
    unfold bind at 1. rewrite He.
    unfold bind at 1. cbn [await]. unfold throw at 1.
    subst s'. unfold logIf, modify, ret. destruct log; reflexivity. }
  split; [ exact He | split; [ exact Hc | split ] ].
  - unfold handleClick, try_catch, bind. rewrite Hc. reflexivity.
  - subst s'. destruct log; repeat split; reflexivity.
Qed.

(** The sample page has picture-in-picture disabled; logging on.  And a
    page where the document allows it but the video element has no
    [requestPictureInPicture]. *)
Lemma pipBtn_click_unsupported_witness :
  handleClick (Some (pipBtn_onClick true None Fulfilled)) (pip_page true)
  = (Normal tt,
     set_console [[LStr "[vjs-custom]"; LStr "PiP error";
                   LErr (Error "Picture-in-Picture not supported")]]
                 (pip_page true))
  /\ enterPiP (Some (mkVideoEl "video" None))
              (set_document (mkDocument None true) (pip_page true))
     = (Normal (Promise (Rejected (Error "Picture-in-Picture not supported"))),
        set_document (mkDocument None true) (pip_page true)).
Proof.
  split.
  - refine (proj1 (proj2 (proj2 (pipBtn_click_unsupported
                                   true None Fulfilled (pip_page true) _ _)))).
    + reflexivity.
    + left. reflexivity.
  - refine (proj1 (pipBtn_click_unsupported
                     true (Some (mkVideoEl "video" None)) Fulfilled
                     (set_document (mkDocument None true) (pip_page true)) _ _)).
    + reflexivity.
    + right. exists (mkVideoEl "video" None). split; reflexivity.
Defined.

(** C7, as stated: with the plugin's default [log: false] the caught
    error is not logged; the console stays empty after the click. *)
Lemma pipBtn_click_unsupported_not_logged :
  pictureInPictureElement (document (pip_page false)) = None
  /\ pictureInPictureEnabled (document (pip_page false)) = false
  /\ fst (enterPiP None (pip_page false))
     = Normal (Promise (Rejected (Error "Picture-in-Picture not supported")))
  /\ console (snd (handleClick (Some (pipBtn_onClick false None Fulfilled))
                               (pip_page false))) = [].
Proof. repeat split; reflexivity. Qed.

(** ** The element tree *)

Lemma find_class_elem (c t : string) (cl : list string) (a : list (string * string))
      (ls : list listener) (kids : list node) :
  find_class c (Elem t cl a ls kids)
  = if has_class c cl then Some [] else find_class_in c 0 kids.
Proof.
  cbn. destruct (has_class c cl); [ reflexivity | ].
  generalize 0%nat. induction kids as [| k ks IH]; intro i; cbn; [ reflexivity | ].
  destruct (find_class c k); [ reflexivity | apply IH ].
Qed.

Lemma find_class_in_sound (c : string) (ks : list node) :
  Forall (fun n => forall p, find_class c n = Some p ->
                             (p = [] /\ marked c (Some n))
                             \/ (exists j p' t cl a ls kids,
                                    p = j :: p' /\ n = Elem t cl a ls kids
                                    /\ marked c (lookup kids p))) ks ->
  forall i p, find_class_in c i ks = Some p ->
              exists j p', p = (i + j)%nat :: p' /\ marked c (lookup ks (j :: p')).
Proof.
  induction 1 as [| k ks Hk Hks IH]; intros i p Hf; cbn in Hf; [ discriminate | ].
  destruct (find_class c k) as [q |] eqn:E.
  - inversion Hf; subst p. exists 0%nat, q. rewrite Nat.add_0_r. split; [ reflexivity | ].
    destruct (Hk q eq_refl) as [[Hq Hm] | (j & p' & t & cl & a & ls & kids & Hq & Hn & Hm)].
    + subst q. exact Hm.
    + subst q k. exact Hm.
  - destruct (IH (S i) p Hf) as (j & p' & Hp & Hm).
    exists (S j), p'. split; [ rewrite Hp; f_equal; lia | exact Hm ].
Qed.

Lemma find_class_sound (c : string) (n : node) :
  forall p, find_class c n = Some p ->
            (p = [] /\ marked c (Some n))
            \/ (exists j p' t cl a ls kids,
                   p = j :: p' /\ n = Elem t cl a ls kids /\ marked c (lookup kids p)).
Proof.
  induction n as [d | t cl a ls kids IH] using node_induction; intros p Hf.
  - discriminate Hf.
  - rewrite find_class_elem in Hf.
    destruct (has_class c cl) eqn:Hc.
    + inversion Hf; subst p. left. split; [ reflexivity | ].
      exists t, cl, a, ls, kids. split; [ reflexivity | exact Hc ].
    + right. destruct (find_class_in_sound c kids IH 0%nat p Hf) as (j & p' & Hp & Hm).
      exists j, p', t, cl, a, ls, kids. cbn in Hp. subst p. repeat split. exact Hm.
Qed.

(** [querySelector] answers the reference of an element with the class. *)
Lemma querySelector_sound (c : string) (ks : list node) (p : path) :
  querySelector c ks = Some p -> marked c (lookup ks p).
Proof.
  intro H. unfold querySelector in H.
  assert (Hall : Forall (fun n => forall p, find_class c n = Some p ->
                             (p = [] /\ marked c (Some n))
                             \/ (exists j p' t cl a ls kids,
                                    p = j :: p' /\ n = Elem t cl a ls kids
                                    /\ marked c (lookup kids p))) ks).
  { apply Forall_forall. intros n _. apply find_class_sound. }
  destruct (find_class_in_sound c ks Hall 0%nat p H) as (j & p' & Hp & Hm).
  cbn in Hp. subst p. exact Hm.
Qed.

Lemma find_class_in_snoc (c : string) (ks : list node) (m : node) :
  forall i, find_class_in c i ks = None ->
            find_class_in c i (ks ++ [m])
            = match find_class c m with
              | Some p => Some ((i + List.length ks)%nat :: p)
              | None => None
              end.
Proof.
  induction ks as [| k ks IH]; intros i H; cbn in *.
  - rewrite Nat.add_0_r. destruct (find_class c m); reflexivity.
  - destruct (find_class c k); [ discriminate | ].
    rewrite (IH (S i) H). destruct (find_class c m); [ | reflexivity ].
    do 2 f_equal. lia.
Qed.

Lemma lookup_snoc (ks : list node) (m : node) :
  lookup (ks ++ [m]) [List.length ks] = Some m.
Proof. cbn. rewrite nth_error_last. reflexivity. Qed.

(** ** The settings menu is created once *)

Lemma ensureSettingsMenu_again (s : State) :
  ensureSettingsMenu (snd (ensureSettingsMenu s)) = ensureSettingsMenu s.
Proof.
  unfold ensureSettingsMenu.
  destruct (querySelector "vjs-settings-menu" (player_el (player s))) as [q |] eqn:E.
  - cbn [snd]. rewrite E. reflexivity.
  - cbn [snd player set_player player_el set_player_el].
    unfold querySelector in *.
    rewrite (find_class_in_snoc _ _ _ 0%nat E). cbn. reflexivity.
Qed.

Lemma ensure_times_again (n : nat) (s : State) :
  snd (ensure_times (S n) s) = snd (ensureSettingsMenu s)
  /\ Forall (fun r => r = fst (ensureSettingsMenu s)) (fst (ensure_times (S n) s)).
Proof.
  revert s. induction n as [| n IH]; intro s.
  - cbn. split; [ reflexivity | repeat constructor ].
  - destruct (IH (snd (ensureSettingsMenu s))) as [Hs Hr].
    rewrite ensureSettingsMenu_again in Hs, Hr.
    change (ensure_times (S (S n)) s)
      with (fst (ensureSettingsMenu s) :: fst (ensure_times (S n) (snd (ensureSettingsMenu s))),
            snd (ensure_times (S n) (snd (ensureSettingsMenu s)))).
    cbn [fst snd]. split; [ exact Hs | constructor; [ reflexivity | exact Hr ] ].
Qed.

(** C9.  [ensureSettingsMenu] is idempotent.  A call answers the reference
    of an element carrying the marker class; a second call answers the
    same reference and changes nothing.  Nothing is created when the
    player's root already has an element with the marker class; otherwise
    exactly one element, the menu, is appended to the root.  After any
    number of calls the page is what it was after the first one, and every
    call has answered the same reference. *)
Theorem ensureSettingsMenu_idempotent :
  forall s : State,
    let r1 := ensureSettingsMenu s in
    let r2 := ensureSettingsMenu (snd r1) in
    (exists menu : path,
        fst r1 = Normal menu /\ fst r2 = Normal menu
        /\ marked "vjs-settings-menu" (lookup (player_el (player (snd r1))) menu))
    /\ snd r2 = snd r1
    /\ (forall q : path,
           querySelector "vjs-settings-menu" (player_el (player s)) = Some q ->
           r1 = (Normal q, s))
    /\ (querySelector "vjs-settings-menu" (player_el (player s)) = None ->
        r1 = (Normal [List.length (player_el (player s))],
              set_player
                (set_player_el
                   (player_el (player s)
                      ++ [menu_showing ["vjs-settings-menu"; "hidden"] "1.0x"])
                   (player s))
                s))
    /\ (forall n : nat,
           snd (ensure_times (S n) s) = snd r1
           /\ Forall (fun r => r = fst r1) (fst (ensure_times (S n) s))).
Proof.
  intros s r1 r2.
  assert (H2 : r2 = r1) by (subst r2 r1; apply ensureSettingsMenu_again).
  split; [ | split; [ rewrite H2; reflexivity | split; [ | split ] ] ].
  - rewrite H2. subst r1. unfold ensureSettingsMenu.
    destruct (querySelector "vjs-settings-menu" (player_el (player s))) as [q |] eqn:E.
    + exists q. cbn. repeat split. apply querySelector_sound. exact E.
    + exists [List.length (player_el (player s))]. cbn [fst snd].
      repeat split.
      cbn [player set_player player_el set_player_el].
      rewrite lookup_snoc. do 5 eexists. split; reflexivity.
  - intros q E. subst r1. unfold ensureSettingsMenu. rewrite E. reflexivity.
  - intro E. subst r1. unfold ensureSettingsMenu. rewrite E. reflexivity.
  - intro n. subst r1. apply ensure_times_again.
Qed.

(** On the sample page the menu becomes the third child of the root, and a
    page that has the menu is left as it is. *)
Lemma ensureSettingsMenu_idempotent_witness :
  fst (ensureSettingsMenu fresh_page) = Normal [2%nat]
  /\ ensureSettingsMenu (snd (ensureSettingsMenu fresh_page))
     = (Normal [2%nat], snd (ensureSettingsMenu fresh_page)).
Proof.
  split.
  - refine (f_equal fst
              (proj1 (proj2 (proj2 (proj2 (ensureSettingsMenu_idempotent fresh_page)))) _)).
    reflexivity.
  - refine (proj1 (proj2 (proj2 (ensureSettingsMenu_idempotent
                                   (snd (ensureSettingsMenu fresh_page)))))
                  [2%nat] _).
    reflexivity.
Defined.

(** ** The playback-rate stepper *)

Lemma append_x_nonempty (t : string) : String.eqb (t ++ "x") "" = false.
Proof. destruct t; reflexivity. Qed.

(** The listener on a click anywhere in the playback-speed row. *)
Lemma settings_click_rate_row (Number_toString : float -> string) (s : State) (i : nat)
      (cl : list string) (txt : string) (target : path) :
  nth_error (player_el (player s)) i = Some (menu_showing cl txt) ->
  In target [[i; 1]; [i; 1; 0]; [i; 1; 1]]%nat ->
  let next := next_rate (playbackRate (player s)) in
  settings_click Number_toString target s
  = (Normal tt,
     set_player
       (set_player_el
          (set_nth (player_el (player s)) i
                   (menu_showing cl (Number_toString next ++ "x")))
          (set_playbackRate next (player s)))
       s).
Proof.
  intros Hmenu Htarget next. subst next.
  unfold settings_click, closest.
  generalize (next_rate (playbackRate (player s))). intro next.
  destruct Htarget as [<- | [<- | [<- | []]]];
    cbn; repeat (rewrite Hmenu; cbn);
    rewrite append_x_nonempty; reflexivity.
Qed.

(** C8, as the code has it.  One step of the stepper gives 1 from a rate
    of 2 or more and [Math.round((r + 0.25) * 100) / 100] from any other;
    on every two-decimal rate below 2 that is exactly the two-decimal
    number 0.25 above it.  A click in the playback-speed row of the menu
    runs one step and writes its result both to the player's rate and,
    followed by "x", to the row's value text.  From 1.0 the steps yield
    1.25, 1.5, 1.75, 2 and, on the fifth, 1 again. *)
Theorem rate_stepper :
  forall Number_toString : float -> string,
    (forall r : float, (2 <=? r)%float = true -> next_rate r = 1%float)
    /\ (forall r : float,
           (2 <=? r)%float = false ->
           next_rate r = (Math_round ((r + 0.25) * 100) / 100)%float)
    /\ forallb (fun k : nat =>
                  (next_rate (of_Z (Z.of_nat k) / 100)
                   =? of_Z (Z.of_nat k + 25) / 100)%float)
               (seq 0 200) = true
    /\ (forall (s : State) (i : nat) (cl : list string) (txt : string) (target : path),
           nth_error (player_el (player s)) i = Some (menu_showing cl txt) ->
           In target [[i; 1]; [i; 1; 0]; [i; 1; 1]]%nat ->
           let next := next_rate (playbackRate (player s)) in
           click Number_toString target s
           = set_player
               (set_player_el
                  (set_nth (player_el (player s)) i
                           (menu_showing cl (Number_toString next ++ "x")))
                  (set_playbackRate next (player s)))
               s)
    /\ trajectory 5 next_rate 1%float = [1.25; 1.5; 1.75; 2; 1]%float.
Proof.
  intro Number_toString.
  split; [ | split; [ | split; [ | split ] ] ].
  - intros r H. unfold next_rate. rewrite H. reflexivity.
  - intros r H. unfold next_rate. rewrite H. reflexivity.
  - vm_compute. reflexivity.
  - intros s i cl txt target Hmenu Htarget next.
    pose proof (settings_click_rate_row Number_toString s i cl txt target Hmenu Htarget) as Hc.
    cbv zeta in Hc. fold next in Hc.
    unfold click.
    assert (Hl : listeners_on (player_el (player s)) target = [SettingsClick]).
    { destruct Htarget as [<- | [<- | [<- | []]]]; cbn; rewrite Hmenu; reflexivity. }
    rewrite Hl. cbn [run_listeners run_listener]. rewrite Hc. reflexivity.
  - vm_compute. reflexivity.
Qed.

(** The first click on the value of the playback-speed row of a new menu:
    the player's rate is 1.25 and the row shows "1.25x". *)
Lemma rate_stepper_witness :
  let s := click toString_on_steps [2; 1; 1]%nat (snd (ensureSettingsMenu fresh_page)) in
  playbackRate (player s) = 1.25%float
  /\ lookup (player_el (player s)) [2; 1; 1]%nat
     = Some (Elem "span" ["value"] [] [] [Text "1.25x"])
  /\ next_rate 2 = 1%float
  /\ next_rate 1 = (Math_round ((1 + 0.25) * 100) / 100)%float.
Proof.
  cbv zeta.
  rewrite (proj1 (proj2 (proj2 (proj2 (rate_stepper toString_on_steps))))
                 (snd (ensureSettingsMenu fresh_page)) 2%nat
                 ["vjs-settings-menu"; "hidden"] "1.0x" [2; 1; 1]%nat
                 eq_refl (or_intror (or_intror (or_introl eq_refl)))).
  split; [ vm_compute; reflexivity | split; [ vm_compute; reflexivity | split ] ].
  - apply (proj1 (rate_stepper toString_on_steps)). vm_compute. reflexivity.
  - apply (proj1 (proj2 (rate_stepper toString_on_steps))). vm_compute. reflexivity.
Defined.

(** C8, as stated: six steps from 1.0 do not end on the wrap.  The rate is
    back at 1 after the fifth step and the sixth yields 1.25. *)
Lemma rate_stepper_wraps_on_fifth_step :
  iterate 5 next_rate 1%float = 1%float
  /\ iterate 6 next_rate 1%float = 1.25%float
  /\ trajectory 6 next_rate 1%float = [1.25; 1.5; 1.75; 2; 1; 1.25]%float.
Proof. repeat split; vm_compute; reflexivity. Qed.

(** Five clicks on a new menu, the rate and the text shown after each. *)
Example five_clicks_on_a_new_menu :
  let shown (s : State) :=
      (playbackRate (player s), lookup (player_el (player s)) [2; 1; 1; 0]%nat) in
  map shown
      (trajectory 5 (click toString_on_steps [2; 1]%nat)
                  (snd (ensureSettingsMenu fresh_page)))
  = [ (1.25%float, Some (Text "1.25x"));
      (1.5%float, Some (Text "1.5x"));
      (1.75%float, Some (Text "1.75x"));
      (2%float, Some (Text "2x"));
      (1%float, Some (Text "1x")) ].
Proof. vm_compute. reflexivity. Qed.

(* ================================================================== *)
(** ** The model at work *)

(** [Math.round] on the cases the language definition singles out: ties go
    up, a result of zero keeps the sign, NaN, infinities and integral
    values are fixed points. *)
Example Math_round_cases :
  map Math_round
      [0.5; 1.5; 2.5; -0.5; -1.5; -2.5; 0.49999999999999994; -0.2; 0.3;
       1.4; 1.6; 125; 124.99999999999999; 4503599627370495.5;
       9007199254740993; infinity; neg_infinity; 0; -0]%float
  = [1; 2; 3; -0; -1; -2; 0; -0; 0; 1; 2; 125; 125; 4503599627370496;
     9007199254740993; infinity; neg_infinity; 0; -0]%float
  /\ Math_round nan = nan.
Proof. split; vm_compute; reflexivity. Qed.

(** The constructor leaves the first icon pending: [currentIcon] is set at
    once, the element is still what the host built. *)
Example constructor_requests_first_icon :
  let s := snd (new_SVGIconButton play_options host_children bare_page) in
  currentIcon (this s) = Some "play"
  /\ requests s = ["/img/icon/play.svg"]
  /\ inflight s = [mkLoad "/img/icon/play.svg" true (IconWaiter "play")]
  /\ el (this s) = host_children.
Proof. repeat split; reflexivity. Qed.

(** Answers may arrive out of order: after [updateIcon("play")] and
    [updateIcon("pause")], the answer for ["pause"] delivered first and the
    one for ["play"] last, the button shows the markup of ["play"] while
    [currentIcon] is ["pause"]. *)
Example late_answer_overwrites :
  let s1 := snd (updateIcon (Some "play") fresh_page) in
  let s2 := snd (updateIcon (Some "pause") s1) in
  let s3 := settle 1 (Response 200 (BodyText "<svg id='pause'/>")) s2 in
  let s4 := settle 0 (Response 200 (BodyText "<svg id='play'/>")) s3 in
  currentIcon (this s4) = Some "pause"
  /\ el (this s4) = [Span "vjs-icon-svg" "<svg id='play'/>"]
  /\ requests s4 = ["/img/icon/play.svg"; "/img/icon/pause.svg"]
  /\ inflight s4 = [].
Proof. repeat split; reflexivity. Qed.

(** Two clicks on the gear: one menu under the root, shown then hidden
    again, and the icon goes to ["gear_open"] and back to ["gear"]. *)
Example gear_clicked_twice :
  let gear := mkButton (mkOptions (Some "/img/icon") (Some "Settings") (Some "gear") false)
                       "/img/icon" (Some "gear") [Span "vjs-icon-svg" "<svg/>"] in
  let s1 := snd (handleClick (Some gearBtn_onClick) (page gear)) in
  let s2 := snd (handleClick (Some gearBtn_onClick) s1) in
  player_el (player s1)
  = player_el sample_player ++ [menu_showing ["vjs-settings-menu"] "1.0x"]
  /\ currentIcon (this s1) = Some "gear_open"
  /\ player_el (player s2)
     = player_el sample_player ++ [menu_showing ["vjs-settings-menu"; "hidden"] "1.0x"]
  /\ currentIcon (this s2) = Some "gear".
Proof. repeat split; reflexivity. Qed.

(** An element of the page already in picture-in-picture: the click exits
    and, the platform agreeing, the icon is ["pip"] (here unchanged). *)
Example pip_exit_click :
  let s := set_document (mkDocument (Some "video") true) (pip_page true) in
  let s' := snd (handleClick (Some (pipBtn_onClick true None Fulfilled)) s) in
  pictureInPictureElement (document s') = None
  /\ currentIcon (this s') = Some "pip"
  /\ console s' = [].
Proof. repeat split; reflexivity. Qed.

(* ================================================================== *)
(** * The rest of the script *)

(** ** Deliveries in general *)

(** What [loadSVG] answers to the transport's answer [r]. *)
Definition loaded (r : fetch_outcome) : option string :=
  match r with
  | Response status (BodyText svgText) =>
      if response_ok status then Some svgText else None
  | _ => None
  end.

(** Every pending icon load carries a name that is not empty. *)
Definition named (s : State) : Prop :=
  Forall (fun l => match load_waiter l with
                   | IconWaiter name => name <> ""
                   | OverlayWaiter => True
                   end) (inflight s).

Lemma loadSVG_resume_loaded (path : string) (log : bool) (r : fetch_outcome) (s : State) :
  fst (loadSVG_resume path log r s) = Normal (loaded r).
Proof.
  unfold_loader. unfold loaded. fetch_cases r; destruct log; reflexivity.
Qed.

(** A success writes nothing to the console. *)
Lemma loadSVG_resume_quiet (path : string) (log : bool) (r : fetch_outcome)
      (s : State) (t : string) :
  loaded r = Some t -> loadSVG_resume path log r s = (Normal (Some t), s).
Proof.
  unfold_loader. unfold loaded.
  fetch_cases r; intro H; try discriminate H; inversion H; reflexivity.
Qed.

(** The state a delivery to a valid index leaves, in closed form. *)
Lemma settle_at (i : nat) (r : fetch_outcome) (s : State) (l : load) :
  nth_error (inflight s) i = Some l ->
  exists s2,
    loadSVG_resume (load_path l) (load_log l) r
                   (set_inflight (remove_nth (inflight s) i) s)
    = (Normal (loaded r), s2)
    /\ settle i r s
       = match load_waiter l with
         | IconWaiter name => snd (updateIcon_resume name (loaded r) s2)
         | OverlayWaiter => snd (setBigOverlaySVG_resume (loaded r) s2)
         end.
Proof.
  intro H. unfold settle. rewrite H.
  pose proof (loadSVG_resume_loaded (load_path l) (load_log l) r
                (set_inflight (remove_nth (inflight s) i) s)) as Hv.
  destruct (loadSVG_resume (load_path l) (load_log l) r
              (set_inflight (remove_nth (inflight s) i) s)) as [c s2].
  cbn in Hv. subst c. exists s2. split; reflexivity.
Qed.

Lemma settle_inflight (i : nat) (r : fetch_outcome) (s : State) :
  inflight (settle i r s) = remove_nth (inflight s) i.
Proof.
  destruct (nth_error (inflight s) i) as [l |] eqn:E.
  - destruct (settle_at i r s l E) as (s2 & Hl & Hs). rewrite Hs.
    pose proof (loadSVG_resume_frame (load_path l) (load_log l) r
                  (set_inflight (remove_nth (inflight s) i) s)) as Hf.
    rewrite Hl in Hf. cbn in Hf. destruct Hf as (_ & Hi & _).
    destruct (load_waiter l) as [name |].
    + unfold updateIcon_resume. destruct (falsy (loaded r)); cbn; exact Hi.
    + unfold setBigOverlaySVG_resume.
      destruct (falsy (loaded r)); [ exact Hi | ].
      destruct (loaded r); [ destruct (BigPlayButton (player s2)) | ]; cbn; exact Hi.
  - unfold settle. rewrite E.
    clear r. revert i E. induction (inflight s) as [| h t IH]; intros i E.
    + destruct i; reflexivity.
    + destruct i as [| j]; [ discriminate E | ].
      cbn in *. rewrite <- (IH j E). reflexivity.
Qed.


Lemma remove_nth_Forall {A : Type} (P : A -> Prop) (l : list A) (i : nat) :
  Forall P l -> Forall P (remove_nth l i).
Proof.
  intro H. revert i. induction H as [| h t Hh Ht IH]; intro i; cbn.
  - destruct i; constructor.
  - destruct i as [| j]; [ exact Ht | constructor; [ exact Hh | apply IH ] ].
Qed.



(** ** Icon updates along any run *)

(** What happens to a button between two observations: a call of
    [updateIcon], a call of [setBigOverlaySVG], the delivery of an answer. *)
Inductive event : Type :=
| CallUpdateIcon (iconName : option string)
| CallOverlay (base name : string)
| Deliver (i : nat) (r : fetch_outcome).

Definition run_event (e : event) (s : State) : State :=
  match e with
  | CallUpdateIcon n => snd (updateIcon n s)
  | CallOverlay base name => snd (setBigOverlaySVG base name s)
  | Deliver i r => settle i r s
  end.

Fixpoint run_events (es : list event) (s : State) : State :=
  match es with
  | [] => s
  | e :: es' => run_events es' (run_event e s)
  end.

(** The state a call that passes the dedup test leaves. *)
Lemma updateIcon_registers (s : State) (name : string) :
  name <> "" ->
  currentIcon (this s) <> Some name ->
  let path := icon_path (iconBasePath (this s)) name in
  updateIcon (Some name) s
  = (Normal (Promise Fulfilled),
     set_inflight
       (inflight s ++ [mkLoad path (opt_log (opts (this s))) (IconWaiter name)])
       (set_requests (requests s ++ [path])
                     (set_this (set_currentIcon (Some name) (this s)) s))).
Proof.
  intros Hne Hcur path. unfold updateIcon.
  assert (E1 : String.eqb name "" = false) by (apply String.eqb_neq; exact Hne).
  assert (E2 : strict_eq name (currentIcon (this s)) = false).
  { unfold strict_eq. destruct (currentIcon (this s)) as [c |]; [ | reflexivity ].
    apply String.eqb_neq. intro H. apply Hcur. now subst. }
  rewrite E1, E2. reflexivity.
Qed.

Lemma run_event_named (e : event) (s : State) : named s -> named (run_event e s).
Proof.
  unfold named. intro H. destruct e as [n | base name | i r]; cbn [run_event].
  - unfold updateIcon. destruct n as [name |]; [ | exact H ].
    destruct (String.eqb name "") eqn:E; cbn [orb]; [ exact H | ].
    destruct (strict_eq name (currentIcon (this s))); [ exact H | ].
    cbn. apply Forall_app. split; [ exact H | ].
    constructor; [ | constructor ]. cbn. apply String.eqb_neq. exact E.
  - unfold setBigOverlaySVG. destruct (BigPlayButton (player s)); [ | exact H ].
    cbn. apply Forall_app. split; [ exact H | ].
    constructor; [ exact I | constructor ].
  - rewrite settle_inflight. apply remove_nth_Forall. exact H.
Qed.

Lemma run_events_named (es : list event) (s : State) :
  named s -> named (run_events es s).
Proof.
  revert s. induction es as [| e es IH]; intros s H; cbn; [ exact H | ].
  apply IH. apply run_event_named. exact H.
Qed.

(** The button's element after the answer [r] reached [updateIcon]. *)
Lemma icon_delivery (i : nat) (r : fetch_outcome) (s : State) (l : load) (name : string) :
  nth_error (inflight s) i = Some l ->
  load_waiter l = IconWaiter name ->
  el (this (settle i r s))
  = (if falsy (loaded r)
     then set_textContent (or_else (opt_label (opts (this s))) name)
     else setButtonSVG (loaded r) "vjs-icon-svg")
  /\ opts (this (settle i r s)) = opts (this s)
  /\ player (settle i r s) = player s
  /\ (forall t, loaded r = Some t -> console (settle i r s) = console s).
Proof.
  intros Hl Hw.
  destruct (settle_at i r s l Hl) as (s2 & Hload & Hs).
  rewrite Hs, Hw.
  pose proof (loadSVG_resume_frame (load_path l) (load_log l) r
                (set_inflight (remove_nth (inflight s) i) s)) as Hf.
  rewrite Hload in Hf. cbn in Hf. destruct Hf as (_ & _ & _ & _ & Hp & Ht).
  unfold updateIcon_resume.
  destruct (falsy (loaded r)) eqn:Ef; cbn; rewrite Ht; cbn;
    (split; [ reflexivity | split; [ reflexivity | split; [ exact Hp | ] ] ]);
    intros t Hsome;
    rewrite (loadSVG_resume_quiet (load_path l) (load_log l) r
               (set_inflight (remove_nth (inflight s) i) s) t Hsome) in Hload;
    inversion Hload; reflexivity.
Qed.

(** X2.  Start from a page with no load pending and let calls of
    [updateIcon] and [setBigOverlaySVG] and deliveries follow in any order.
    Whenever the answer for a pending icon of the button is then
    delivered, the button's element holds exactly one child: a span of
    class [vjs-icon-svg] with the markup when the load gave a non-empty
    text, else a text node with the label, or the icon's name when the
    label is absent or empty.  A successful response with an empty body
    takes the text branch, and nothing is logged for it. *)
Theorem icon_delivery_leaves_one_node :
  forall (s0 : State) (es : list event),
    inflight s0 = [] ->
    let s := run_events es s0 in
    forall (i : nat) (r : fetch_outcome) (l : load) (name : string),
      nth_error (inflight s) i = Some l ->
      load_waiter l = IconWaiter name ->
      let text := TextNode (or_else (opt_label (opts (this s))) name) in
      el (this (settle i r s))
      = match loaded r with
        | Some t => if String.eqb t "" then [text] else [Span "vjs-icon-svg" t]
        | None => [text]
        end
      /\ List.length (el (this (settle i r s))) = 1%nat
      /\ String.eqb (or_else (opt_label (opts (this s))) name) "" = false
      /\ (forall t, loaded r = Some t -> console (settle i r s) = console s).
Proof.
  intros s0 es H0 s i r l name Hl Hw text.
  assert (Hnamed : named s).
  { subst s. apply run_events_named. unfold named. rewrite H0. constructor. }
  assert (Hname : name <> "").
  { unfold named in Hnamed. rewrite Forall_forall in Hnamed.
    specialize (Hnamed l (nth_error_In _ _ Hl)). rewrite Hw in Hnamed. exact Hnamed. }
  assert (Htext : String.eqb (or_else (opt_label (opts (this s))) name) "" = false).
  { apply String.eqb_neq. apply or_else_nonempty. exact Hname. }
  destruct (icon_delivery i r s l name Hl Hw) as (Hel & _ & _ & Hc).
  assert (Hshape : el (this (settle i r s))
                   = match loaded r with
                     | Some t => if String.eqb t "" then [text] else [Span "vjs-icon-svg" t]
                     | None => [text]
                     end).
  { rewrite Hel. subst text. unfold falsy, setButtonSVG, set_textContent.
    rewrite Htext. destruct (loaded r) as [t |]; [ | reflexivity ].
    destruct (String.eqb t ""); reflexivity. }
  split; [ exact Hshape | split; [ | split; [ exact Htext | exact Hc ] ] ].
  rewrite Hshape. destruct (loaded r) as [t |]; [ | reflexivity ].
  destruct (String.eqb t ""); reflexivity.
Qed.

(** A 200 with an empty body for the first icon of the play/pause button:
    its label is shown and the console stays empty. *)
Lemma icon_delivery_leaves_one_node_witness :
  let s := run_events [CallOverlay "/img/icon" "bigplay"; CallUpdateIcon (Some "play")]
                      fresh_page in
  el (this (settle 1 (Response 200 (BodyText "")) s)) = [TextNode "Play/Pause"]
  /\ console (settle 1 (Response 200 (BodyText "")) s) = [].
Proof.
  cbv zeta.
  pose proof (icon_delivery_leaves_one_node
                fresh_page
                [CallOverlay "/img/icon" "bigplay"; CallUpdateIcon (Some "play")]
                eq_refl 1%nat (Response 200 (BodyText ""))
                (mkLoad "/img/icon/play.svg" true (IconWaiter "play")) "play"
                eq_refl eq_refl) as H.
  cbv zeta in H. destruct H as (Hel & _ & _ & Hc).
  split; [ exact Hel | exact (Hc "" eq_refl) ].
Defined.

(** A delivery changes nothing of the button but the children of its
    element. *)
Lemma settle_this (i : nat) (r : fetch_outcome) (s : State) :
  this (settle i r s) = set_el (el (this (settle i r s))) (this s).
Proof.
  destruct (nth_error (inflight s) i) as [l |] eqn:E.
  - destruct (settle_at i r s l E) as (s2 & Hl & Hs). rewrite Hs.
    pose proof (loadSVG_resume_frame (load_path l) (load_log l) r
                  (set_inflight (remove_nth (inflight s) i) s)) as Hf.
    rewrite Hl in Hf. cbn in Hf. destruct Hf as (_ & _ & _ & _ & _ & Ht).
    destruct (load_waiter l) as [name |].
    + unfold updateIcon_resume. destruct (falsy (loaded r)); cbn; rewrite Ht; reflexivity.
    + unfold setBigOverlaySVG_resume.
      destruct (falsy (loaded r));
        [ | destruct (loaded r); [ destruct (BigPlayButton (player s2)) | ] ];
        cbn; rewrite Ht; destruct (this s); reflexivity.
  - unfold settle. rewrite E. destruct (this s); reflexivity.
Qed.

Lemma nth_error_app_at {A : Type} (l : list A) (x : A) (rest : list A) :
  nth_error (l ++ x :: rest) (List.length l) = Some x.
Proof. induction l as [| h t IH]; cbn; [ reflexivity | exact IH ]. Qed.

Lemma remove_nth_app_at {A : Type} (l : list A) (x : A) (rest : list A) :
  remove_nth (l ++ x :: rest) (List.length l) = l ++ rest.
Proof. induction l as [| h t IH]; cbn; [ reflexivity | now rewrite IH ]. Qed.

(** X3.  A load that failed is not retried by asking for the same icon
    again: after [updateIcon(a)] ended in the text fallback, a further
    [updateIcon(a)] changes nothing and fetches nothing, so the text
    stays.  The icon is fetched again only once another icon [b] has been
    requested in between. *)
Theorem failed_icon_is_not_retried :
  forall (s : State) (a b : string) (r : fetch_outcome),
    a <> "" -> b <> "" -> a <> b ->
    currentIcon (this s) <> Some a ->
    loaded r = None ->
    let path (n : string) := icon_path (iconBasePath (this s)) n in
    let s1 := settle (List.length (inflight s)) r (snd (updateIcon (Some a) s)) in
    el (this s1) = [TextNode (or_else (opt_label (opts (this s))) a)]
    /\ requests s1 = requests s ++ [path a]
    /\ updateIcon (Some a) s1 = (Normal (Promise Fulfilled), s1)
    /\ requests (snd (updateIcon (Some a) (snd (updateIcon (Some b) s1))))
       = requests s ++ [path a; path b; path a].
Proof.
  intros s a b r Ha Hb Hab Hcur Hfail path s1.
  pose proof (updateIcon_registers s a Ha Hcur) as Hreg. cbv zeta in Hreg.
  fold (path a) in Hreg.
  set (sa := snd (updateIcon (Some a) s)) in *.
  assert (Hsa : sa = set_inflight
                       (inflight s ++ [mkLoad (path a) (opt_log (opts (this s))) (IconWaiter a)])
                       (set_requests (requests s ++ [path a])
                                     (set_this (set_currentIcon (Some a) (this s)) s)))
    by (subst sa; rewrite Hreg; reflexivity).
  assert (Hnth : nth_error (inflight sa) (List.length (inflight s))
                 = Some (mkLoad (path a) (opt_log (opts (this s))) (IconWaiter a))).
  { rewrite Hsa. cbn [inflight set_inflight]. apply nth_error_app_at. }
  destruct (icon_delivery (List.length (inflight s)) r sa _ a Hnth eq_refl)
    as (Hel & _ & _ & _).
  destruct (settle_frame (List.length (inflight s)) r sa) as (Hreq & Hc & _).
  pose proof (settle_this (List.length (inflight s)) r sa) as Hthis.
  fold s1 in Hel, Hreq, Hc, Hthis.
  assert (Hcur1 : currentIcon (this s1) = Some a) by (rewrite Hc, Hsa; reflexivity).
  assert (Hbase1 : iconBasePath (this s1) = iconBasePath (this s))
    by (rewrite Hthis, Hsa; reflexivity).
  assert (Hreq1 : requests s1 = requests s ++ [path a]) by (rewrite Hreq, Hsa; reflexivity).
  split; [ | split; [ exact Hreq1 | split ] ].
  - rewrite Hel, Hfail, Hsa. cbn. unfold set_textContent.
    assert (E : String.eqb (or_else (opt_label (opts (this s))) a) "" = false)
      by (apply String.eqb_neq; apply or_else_nonempty; exact Ha).
    rewrite E. reflexivity.
  - apply updateIcon_same. exact Hcur1.
  - assert (Hb1 : currentIcon (this s1) <> Some b) by (rewrite Hcur1; congruence).
    pose proof (updateIcon_registers s1 b Hb Hb1) as Hrb. cbv zeta in Hrb.
    rewrite Hrb. cbn [snd].
    match goal with
    | |- requests (snd (updateIcon (Some a) ?sb)) = _ =>
        assert (Ha2 : currentIcon (this sb) <> Some a) by (cbn; congruence);
        pose proof (updateIcon_registers sb a Ha Ha2) as Hra; cbv zeta in Hra;
        rewrite Hra
    end.
    cbn. rewrite Hreq1, Hbase1. unfold path. rewrite <- !app_assoc. reflexivity.
Qed.

(** The first icon of the play/pause button answered by a 404, then asked
    for again at once, and again after ["pause"]. *)
Lemma failed_icon_is_not_retried_witness :
  let s1 := settle 0 (Response 404 (BodyText "Not Found"))
                   (snd (updateIcon (Some "play") fresh_page)) in
  updateIcon (Some "play") s1 = (Normal (Promise Fulfilled), s1)
  /\ requests (snd (updateIcon (Some "play") (snd (updateIcon (Some "pause") s1))))
     = ["/img/icon/play.svg"; "/img/icon/pause.svg"; "/img/icon/play.svg"].
Proof.
  cbv zeta.
  assert (H1 : "play" <> "") by discriminate.
  assert (H2 : "pause" <> "") by discriminate.
  assert (H3 : "play" <> "pause") by discriminate.
  assert (H4 : currentIcon (this fresh_page) <> Some "play") by discriminate.
  pose proof (failed_icon_is_not_retried
                fresh_page "play" "pause" (Response 404 (BodyText "Not Found"))
                H1 H2 H3 H4 eq_refl) as H.
  cbv zeta in H. destruct H as (_ & _ & Hsame & Hagain).
  split; [ exact Hsame | exact Hagain ].
Defined.

(** X4.  Answers are applied in the order they arrive, not in the order
    the icons were asked for.  After [updateIcon(a)] then [updateIcon(b)],
    both loads succeeding, [currentIcon] is [b] either way; the element
    shows the markup of [b] when the answer for [a] arrives first, and the
    markup of [a] when it arrives last. *)
Theorem last_answer_wins_the_element :
  forall (s : State) (a b ta tb : string) (ra rb : fetch_outcome),
    a <> "" -> b <> "" -> a <> b ->
    currentIcon (this s) <> Some a ->
    loaded ra = Some ta -> ta <> "" ->
    loaded rb = Some tb -> tb <> "" ->
    let n := List.length (inflight s) in
    let s2 := snd (updateIcon (Some b) (snd (updateIcon (Some a) s))) in
    let in_order := settle n rb (settle n ra s2) in
    let reversed := settle n ra (settle (S n) rb s2) in
    currentIcon (this in_order) = Some b
    /\ el (this in_order) = [Span "vjs-icon-svg" tb]
    /\ currentIcon (this reversed) = Some b
    /\ el (this reversed) = [Span "vjs-icon-svg" ta]
    /\ inflight in_order = inflight s
    /\ inflight reversed = inflight s.
Proof.
  intros s a b ta tb ra rb Ha Hb Hab Hcur Hra Hta Hrb Htb n s2 in_order reversed.
  pose proof (updateIcon_registers s a Ha Hcur) as Hreg. cbv zeta in Hreg.
  set (sa := snd (updateIcon (Some a) s)) in *.
  assert (Hsa_cur : currentIcon (this sa) = Some a) by (subst sa; rewrite Hreg; reflexivity).
  assert (Hsa_in : inflight sa
                   = inflight s ++ [mkLoad (icon_path (iconBasePath (this s)) a)
                                           (opt_log (opts (this s))) (IconWaiter a)])
    by (subst sa; rewrite Hreg; reflexivity).
  assert (Hb1 : currentIcon (this sa) <> Some b) by (rewrite Hsa_cur; congruence).
  pose proof (updateIcon_registers sa b Hb Hb1) as Hregb. cbv zeta in Hregb.
  assert (Hs2_cur : currentIcon (this s2) = Some b) by (subst s2; rewrite Hregb; reflexivity).
  set (la := mkLoad (icon_path (iconBasePath (this s)) a)
                    (opt_log (opts (this s))) (IconWaiter a)) in *.
  set (lb := mkLoad (icon_path (iconBasePath (this sa)) b)
                    (opt_log (opts (this sa))) (IconWaiter b)) in *.
  assert (Hs2_in : inflight s2 = inflight s ++ [la; lb]).
  { subst s2. rewrite Hregb. cbn [snd inflight set_inflight].
    rewrite Hsa_in, <- app_assoc. reflexivity. }
  assert (Hspan : forall t, t <> "" ->
                            setButtonSVG (Some t) "vjs-icon-svg" = [Span "vjs-icon-svg" t]).
  { intros t Ht. unfold setButtonSVG.
    apply String.eqb_neq in Ht. rewrite Ht. reflexivity. }
  assert (Hfalsy : forall t, t <> "" -> falsy (Some t) = false).
  { intros t Ht. apply String.eqb_neq in Ht. exact Ht. }
  (* in order: a's answer first *)
  assert (Hn_a : nth_error (inflight s2) n = Some la)
    by (rewrite Hs2_in; apply nth_error_app_at).
  assert (Hin1 : inflight (settle n ra s2) = inflight s ++ [lb]).
  { rewrite settle_inflight, Hs2_in. apply remove_nth_app_at. }
  assert (Hn_b : nth_error (inflight (settle n ra s2)) n = Some lb)
    by (rewrite Hin1; apply nth_error_app_at).
  destruct (icon_delivery n rb (settle n ra s2) lb b Hn_b eq_refl) as (Hel_io & _).
  (* reversed: b's answer first *)
  assert (HSn_b : nth_error (inflight s2) (S n) = Some lb).
  { rewrite Hs2_in.
    change (inflight s ++ [la; lb]) with (inflight s ++ [la] ++ [lb]).
    rewrite app_assoc.
    replace (S n) with (List.length (inflight s ++ [la]))
      by (rewrite length_app; cbn; subst n; lia).
    apply nth_error_app_at. }
  assert (Hin2 : inflight (settle (S n) rb s2) = inflight s ++ [la]).
  { rewrite settle_inflight, Hs2_in.
    change (inflight s ++ [la; lb]) with (inflight s ++ [la] ++ [lb]).
    rewrite app_assoc.
    replace (S n) with (List.length (inflight s ++ [la]))
      by (rewrite length_app; cbn; subst n; lia).
    rewrite remove_nth_app_at, app_nil_r. reflexivity. }
  assert (Hn_a2 : nth_error (inflight (settle (S n) rb s2)) n = Some la)
    by (rewrite Hin2; apply nth_error_app_at).
  destruct (icon_delivery n ra (settle (S n) rb s2) la a Hn_a2 eq_refl) as (Hel_rev & _).
  subst in_order reversed.
  repeat split.
  - destruct (settle_frame n rb (settle n ra s2)) as (_ & Hc & _).
    destruct (settle_frame n ra s2) as (_ & Hc' & _). congruence.
  - rewrite Hel_io, Hrb, (Hfalsy tb Htb). apply Hspan. exact Htb.
  - destruct (settle_frame n ra (settle (S n) rb s2)) as (_ & Hc & _).
    destruct (settle_frame (S n) rb s2) as (_ & Hc' & _). congruence.
  - rewrite Hel_rev, Hra, (Hfalsy ta Hta). apply Hspan. exact Hta.
  - rewrite settle_inflight, Hin1. unfold n.
    rewrite (remove_nth_app_at (inflight s) lb []), app_nil_r. reflexivity.
  - rewrite settle_inflight, Hin2. unfold n.
    rewrite (remove_nth_app_at (inflight s) la []), app_nil_r. reflexivity.
Qed.

(** ["play"] then ["pause"] on the fresh button, the answer for ["play"]
    arriving last. *)
Lemma last_answer_wins_the_element_witness :
  let s2 := snd (updateIcon (Some "pause") (snd (updateIcon (Some "play") fresh_page))) in
  let reversed := settle 0 (Response 200 (BodyText "<svg id='play'/>"))
                         (settle 1 (Response 200 (BodyText "<svg id='pause'/>")) s2) in
  currentIcon (this reversed) = Some "pause"
  /\ el (this reversed) = [Span "vjs-icon-svg" "<svg id='play'/>"].
Proof.
  cbv zeta.
  assert (H1 : "play" <> "") by discriminate.
  assert (H2 : "pause" <> "") by discriminate.
  assert (H3 : "play" <> "pause") by discriminate.
  assert (H4 : currentIcon (this fresh_page) <> Some "play") by discriminate.
  assert (H5 : "<svg id='play'/>" <> "") by discriminate.
  assert (H6 : "<svg id='pause'/>" <> "") by discriminate.
  pose proof (last_answer_wins_the_element
                fresh_page "play" "pause" "<svg id='play'/>" "<svg id='pause'/>"
                (Response 200 (BodyText "<svg id='play'/>"))
                (Response 200 (BodyText "<svg id='pause'/>"))
                H1 H2 H3 H4 eq_refl H5 eq_refl H6) as H.
  cbv zeta in H. destruct H as (_ & _ & Hc & He & _).
  split; [ exact Hc | exact He ].
Defined.

(** ** The overlay's loads *)

(** X5.  [setBigOverlaySVG] has no dedup and no diagnostics.  On a player
    with a [BigPlayButton] every call issues its fetch, so two calls with
    the same name fetch the same path twice.  When the answer arrives the
    overlay's element holds one span of class [vjs-big-button-svg] with
    the markup if the load gave a non-empty text, and is left as it was
    otherwise; neither the console nor the button is written to, whatever
    the answer. *)
Theorem overlay_loads_every_time :
  forall (s : State) (base name : string) (big : list content),
    BigPlayButton (player s) = Some big ->
    let path := icon_path base name in
    requests (snd (setBigOverlaySVG base name (snd (setBigOverlaySVG base name s))))
    = requests s ++ [path; path]
    /\ forall r : fetch_outcome,
        let s1 := settle (List.length (inflight s)) r (snd (setBigOverlaySVG base name s)) in
        BigPlayButton (player s1)
        = match loaded r with
          | Some t => if String.eqb t "" then Some big
                      else Some [Span "vjs-big-button-svg" t]
          | None => Some big
          end
        /\ console s1 = console s
        /\ this s1 = this s
        /\ inflight s1 = inflight s.
Proof.
  intros s base name big Hbig path. split.
  - unfold setBigOverlaySVG. rewrite Hbig. cbn. rewrite Hbig. cbn.
    rewrite <- app_assoc. reflexivity.
  - intros r s1. subst s1. unfold setBigOverlaySVG. rewrite Hbig. cbn [snd].
    settle_registered s r.
    cbn [load_path load_log load_waiter].
    unfold_loader. unfold loaded, setBigOverlaySVG_resume.
    fetch_cases r; cbn; rewrite ?Hbig; try (repeat split; reflexivity).
    destruct (String.eqb t "") eqn:E; cbn; rewrite ?Hbig; repeat split; reflexivity.
Qed.

(** Two ["bigplay"] in a row on the sample player, and a 500 for one. *)
Lemma overlay_loads_every_time_witness :
  requests (snd (setBigOverlaySVG "/img/icon" "bigplay"
                                  (snd (setBigOverlaySVG "/img/icon" "bigplay" fresh_page))))
  = ["/img/icon/bigplay.svg"; "/img/icon/bigplay.svg"]
  /\ console (settle 0 (Response 500 (BodyText "oops"))
                     (snd (setBigOverlaySVG "/img/icon" "bigplay" fresh_page))) = [].
Proof.
  split.
  - exact (proj1 (overlay_loads_every_time fresh_page "/img/icon" "bigplay"
                                           [HostNode "vjs-icon-placeholder"] eq_refl)).
  - exact (proj1 (proj2 (proj2 (overlay_loads_every_time
                                  fresh_page "/img/icon" "bigplay"
                                  [HostNode "vjs-icon-placeholder"] eq_refl)
                               (Response 500 (BodyText "oops"))))).
Defined.

(** ** Construction and configuration *)

(** X6.  A new [SVGIconButton] keeps the element the host built until its
    first icon arrives.  Its base path is the configured one, or
    ["/img/icon"] when that is absent or empty.  Built without an icon, or
    with an empty one, it fetches nothing and [currentIcon] stays [null];
    built with an icon it issues exactly one fetch, of
    [base/icon.svg], and [currentIcon] is that icon at once. *)
Theorem constructor_requests_the_icon :
  forall (options : Options) (host_el : list content) (s : State),
    let out := new_SVGIconButton options host_el s in
    let s' := snd out in
    let base := match opt_iconBasePath options with
                | Some b => if String.eqb b "" then "/img/icon" else b
                | None => "/img/icon"
                end in
    fst out = Normal tt
    /\ iconBasePath (this s') = base
    /\ opts (this s') = options
    /\ el (this s') = host_el
    /\ (falsy (opt_icon options) = true ->
        currentIcon (this s') = None
        /\ requests s' = requests s /\ inflight s' = inflight s)
    /\ (forall icon : string,
           opt_icon options = Some icon -> icon <> "" ->
           currentIcon (this s') = Some icon
           /\ requests s' = requests s ++ [icon_path base icon]
           /\ inflight s'
              = inflight s ++ [mkLoad (icon_path base icon) (opt_log options)
                                      (IconWaiter icon)]).
Proof.
  intros options host_el s out s' base. subst out s'.
  unfold new_SVGIconButton, bind, modify, discard.
  set (s0 := set_this (mkButton options (or_else (opt_iconBasePath options) "/img/icon")
                                None host_el) s).
  assert (Hbase : or_else (opt_iconBasePath options) "/img/icon" = base) by reflexivity.
  destruct (opt_icon options) as [icon |] eqn:Hicon.
  - destruct (String.eqb icon "") eqn:E.
    + unfold updateIcon. rewrite E. cbn.
      do 4 (split; [ reflexivity | ]). split.
      * intros _. split; [ reflexivity | split; reflexivity ].
      * intros i Hi Hne. inversion Hi. subst i.
        apply String.eqb_eq in E. contradiction.
    + assert (Hne : icon <> "") by (apply String.eqb_neq; exact E).
      assert (Hcur : currentIcon (this s0) <> Some icon) by (cbn; discriminate).
      pose proof (updateIcon_registers s0 icon Hne Hcur) as Hreg. cbv zeta in Hreg.
      rewrite Hreg. cbn.
      do 4 (split; [ reflexivity | ]). split.
      * intro Hf. rewrite E in Hf. discriminate Hf.
      * intros i Hi _. inversion Hi. subst i.
        split; [ reflexivity | split; reflexivity ].
  - cbn. do 4 (split; [ reflexivity | ]). split.
    + intros _. split; [ reflexivity | split; reflexivity ].
    + intros i Hi. discriminate Hi.
Qed.

(** Built as the plugin builds the stop button but without a base path;
    and built without an icon. *)
Lemma constructor_requests_the_icon_witness :
  requests (snd (new_SVGIconButton (mkOptions None (Some "Stop") (Some "stop") false)
                                   host_children bare_page))
  = ["/img/icon/stop.svg"]
  /\ requests (snd (new_SVGIconButton (mkOptions (Some "/icons") (Some "Stop") None false)
                                      host_children bare_page)) = [].
Proof.
  pose proof (constructor_requests_the_icon
                (mkOptions None (Some "Stop") (Some "stop") false)
                host_children bare_page) as H1.
  pose proof (constructor_requests_the_icon
                (mkOptions (Some "/icons") (Some "Stop") None false)
                host_children bare_page) as H2.
  cbv zeta in H1, H2.
  destruct H1 as (_ & _ & _ & _ & _ & H1).
  destruct H2 as (_ & _ & _ & _ & H2 & _).
  assert (Hne : "stop" <> "") by discriminate.
  split.
  - exact (proj1 (proj2 (H1 "stop" eq_refl Hne))).
  - exact (proj1 (proj2 (H2 eq_refl))).
Defined.








(** ** Volume *)

(** The host's [muted(value)] when it does what it is asked. *)
Definition set_muted (m : bool) (p : Player) : Player :=
  mkPlayer m (volume p) (isFullscreen p) (playbackRate p) (BigPlayButton p) (player_el p).

Definition host_muted (m : bool) : HostCall :=
  fun p => (Normal Undefined, set_muted m p).

(** The volume button's [onClick]; [muted_setter] is the host's
    [muted(value)]. *)
Definition volumeBtn_onClick (muted_setter : bool -> HostCall) : Callback :=
  m <- gets (fun s => muted (player s)) ;;
  r <- host_call (muted_setter (negb m)) ;; discard r ;;
  icon <- gets (fun s => volumeIconFor (player s)) ;;
  v <- updateIcon (Some icon) ;; discard v ;;
  ret Undefined.

(** The listener of ['volumechange']. *)
Definition on_volumechange : M unit :=
  icon <- gets (fun s => volumeIconFor (player s)) ;;
  v <- updateIcon (Some icon) ;; discard v.

(** The listener of ['fullscreenchange']. *)
Definition on_fullscreenchange : M unit :=
  fs <- gets (fun s => isFullscreen (player s)) ;;
  v <- updateIcon (Some (if fs then "full_exit" else "full")) ;; discard v.

Lemma volumeIconFor_named (p : Player) : volumeIconFor p <> "".
Proof.
  unfold volumeIconFor.
  destruct (muted p || (volume p =? 0)%float); [ discriminate | ].
  destruct (volume p <=? 0.33)%float; [ discriminate | ].
  destruct (volume p <=? 0.66)%float; discriminate.
Qed.

(** Dropping a value writes to nothing but the unhandled rejections. *)
Lemma discard_frame (v : value) (s : State) :
  exists s', discard v s = (Normal tt, s')
             /\ player s' = player s /\ this s' = this s
             /\ requests s' = requests s /\ inflight s' = inflight s
             /\ console s' = console s /\ document s' = document s.
Proof.
  destruct v as [| [| e]]; cbn; eexists; repeat split; reflexivity.
Qed.

(** [updateIcon] writes to the button, the requests and the pending
    loads only; its promise dropped, nothing else happens. *)
Lemma updateIcon_frame (n : option string) (s : State) :
  exists s', updateIcon n s = (Normal (Promise Fulfilled), s')
             /\ player s' = player s /\ console s' = console s
             /\ document s' = document s /\ unhandled s' = unhandled s
             /\ opts (this s') = opts (this s)
             /\ el (this s') = el (this s)
             /\ discard (Promise Fulfilled) s' = (Normal tt, s').
Proof.
  unfold updateIcon. destruct n as [name |].
  - destruct (String.eqb name "" || strict_eq name (currentIcon (this s)));
      eexists; repeat split; reflexivity.
  - eexists; repeat split; reflexivity.
Qed.

Lemma set_muted_twice (p : Player) :
  set_muted (negb (negb (muted p))) (set_muted (negb (muted p)) p) = p.
Proof. destruct p as [m v f r b k]. cbn. rewrite negb_involutive. reflexivity. Qed.

(** X8.  A click on the volume button asks the host to invert the mute
    flag and then shows the icon of the player's state as it is after
    that call: whatever the button showed before, [currentIcon] is
    [volumeIconFor] of the player afterwards, so the ['volumechange']
    notification that follows finds nothing to do and fetches nothing.
    An error thrown by the host's setter leaves the handler before any
    icon update.  With a host that sets the flag, the icon after the
    click is ["audio_mute"] exactly when the player is now muted or its
    volume is 0, and a second click restores the player and shows the
    icon of the original state. *)
Theorem volume_click_shows_player_state :
  forall (muted_setter : bool -> HostCall) (s : State),
    (forall v p',
        muted_setter (negb (muted (player s))) (player s) = (Normal v, p') ->
        exists s',
          volumeBtn_onClick muted_setter s = (Normal Undefined, s')
          /\ player s' = p'
          /\ currentIcon (this s') = Some (volumeIconFor p')
          /\ on_volumechange s' = (Normal tt, s'))
    /\ (forall e p',
           muted_setter (negb (muted (player s))) (player s) = (Abrupt e, p') ->
           volumeBtn_onClick muted_setter s = (Abrupt e, set_player p' s))
    /\ (let s1 := snd (volumeBtn_onClick host_muted s) in
        let s2 := snd (volumeBtn_onClick host_muted s1) in
        muted (player s1) = negb (muted (player s))
        /\ volume (player s1) = volume (player s)
        /\ (currentIcon (this s1) = Some "audio_mute"
            <-> muted (player s) = false \/ (volume (player s) =? 0)%float = true)
        /\ player s2 = player s
        /\ currentIcon (this s2) = Some (volumeIconFor (player s))).
Proof.
  assert (Hok : forall (setter : bool -> HostCall) (s : State) v p',
             setter (negb (muted (player s))) (player s) = (Normal v, p') ->
             exists s',
               volumeBtn_onClick setter s = (Normal Undefined, s')
               /\ player s' = p'
               /\ currentIcon (this s') = Some (volumeIconFor p')
               /\ on_volumechange s' = (Normal tt, s')).
  { intros setter s v p' H.
    unfold volumeBtn_onClick.
    unfold bind at 1. unfold gets at 1.
    unfold bind at 1. unfold host_call at 1. rewrite H. cbn [fst snd].
    unfold bind at 1.
    destruct (discard_frame v (set_player p' s)) as (s1 & D & Dp & _).
    rewrite D. cbn in Dp.
    unfold bind at 1. unfold gets at 1. rewrite Dp.
    destruct (updateIcon_sets s1 (volumeIconFor p') (volumeIconFor_named p'))
      as (s2 & Hu & Hc).
    destruct (updateIcon_frame (Some (volumeIconFor p')) s1)
      as (s2' & Hu' & Hp & _ & _ & _ & _ & _ & Hd).
    rewrite Hu in Hu'. inversion Hu'. subst s2'.
    unfold bind at 1. rewrite Hu.
    unfold bind at 1. rewrite Hd. unfold ret.
    exists s2. split; [ reflexivity | ].
    assert (Hp2 : player s2 = p') by (rewrite Hp; exact Dp).
    split; [ exact Hp2 | split; [ exact Hc | ] ].
    unfold on_volumechange, bind, gets. rewrite Hp2.
    rewrite (updateIcon_same s2 (volumeIconFor p') Hc). exact Hd. }
  intros setter s.
  split; [ exact (Hok setter s) | split ].
  - intros e p' H.
    unfold volumeBtn_onClick, bind, gets, host_call. rewrite H. reflexivity.
  - cbv zeta.
    destruct (Hok host_muted s Undefined
                  (set_muted (negb (muted (player s))) (player s)) eq_refl)
      as (s1 & H1 & Hp1 & Hc1 & _).
    rewrite H1. cbn [snd].
    assert (Hset : host_muted (negb (muted (player s1))) (player s1)
                   = (Normal Undefined, player s)).
    { unfold host_muted. rewrite Hp1. cbn [muted set_muted].
      rewrite (set_muted_twice (player s)). reflexivity. }
    destruct (Hok host_muted s1 Undefined (player s) Hset) as (s2 & H2 & Hp2 & Hc2 & _).
    rewrite H2. cbn [snd].
    rewrite Hp1, Hc1. cbn [muted volume set_muted].
    split; [ reflexivity | split; [ reflexivity | split; [ | split; assumption ] ] ].
    unfold volumeIconFor. cbn [muted volume set_muted].
    destruct (muted (player s)); cbn [negb orb].
    + destruct (volume (player s) =? 0)%float.
      * split; [ intros _; right; reflexivity | reflexivity ].
      * destruct (volume (player s) <=? 0.33)%float;
          [ | destruct (volume (player s) <=? 0.66)%float ];
          (split; [ intro H; discriminate H | intros [H | H]; discriminate H ]).
    + split; [ intros _; left; reflexivity | reflexivity ].
Qed.

(** The sample player, unmuted at full volume, with a host that sets the
    flag; and a host whose setter throws. *)
Lemma volume_click_shows_player_state_witness :
  (exists s', volumeBtn_onClick host_muted fresh_page = (Normal Undefined, s')
              /\ player s' = set_muted true sample_player
              /\ currentIcon (this s') = Some "audio_mute"
              /\ on_volumechange s' = (Normal tt, s'))
  /\ volumeBtn_onClick (fun _ => host_throws) fresh_page
     = (Abrupt (HostError "denied"), set_player sample_player fresh_page).
Proof.
  split.
  - exact (proj1 (volume_click_shows_player_state host_muted fresh_page)
                 Undefined (set_muted true sample_player) eq_refl).
  - exact (proj1 (proj2 (volume_click_shows_player_state (fun _ => host_throws) fresh_page))
                 (HostError "denied") sample_player eq_refl).
Defined.

(** ** Fullscreen notification *)

(** The fullscreen handler when the host's call returns. *)
Lemma fsBtn_click_returned (log : bool) (exitFs reqFs : HostCall) (s : State)
      (v : value) (p' : Player) :
  (if isFullscreen (player s) then exitFs else reqFs) (player s) = (Normal v, p') ->
  exists s',
    fsBtn_onClick log exitFs reqFs s = (Normal Undefined, s')
    /\ player s' = p'
    /\ currentIcon (this s')
       = Some (if isFullscreen (player s) then "full" else "full_exit").
Proof.
  intro H.
  assert (Hgo : forall icon : string,
             icon <> "" ->
             exists s',
               (r <- host_call (if isFullscreen (player s) then exitFs else reqFs) ;;
                discard r ;; v0 <- updateIcon (Some icon) ;; discard v0) s = (Normal tt, s')
               /\ player s' = p' /\ currentIcon (this s') = Some icon).
  { intros icon Hne.
    unfold bind at 1. unfold host_call at 1. rewrite H. cbn [fst snd].
    unfold bind at 1.
    destruct (discard_frame v (set_player p' s)) as (s1 & D & Dp & _).
    rewrite D. cbn in Dp.
    destruct (updateIcon_sets s1 icon Hne) as (s2 & Hu & Hc).
    destruct (updateIcon_frame (Some icon) s1) as (s2' & Hu' & Hp & _ & _ & _ & _ & _ & Hd).
    rewrite Hu in Hu'. inversion Hu'. subst s2'.
    unfold bind at 1. rewrite Hu. rewrite Hd.
    exists s2. split; [ reflexivity | split; [ congruence | exact Hc ] ]. }
  unfold fsBtn_onClick.
  unfold bind at 1. unfold try_catch. unfold bind at 1. unfold gets at 1.
  destruct (isFullscreen (player s)).
  - destruct (Hgo "full") as (s' & Hs & Hp & Hc); [ discriminate | ].
    rewrite Hs. exists s'. split; [ reflexivity | split; assumption ].
  - destruct (Hgo "full_exit") as (s' & Hs & Hp & Hc); [ discriminate | ].
    rewrite Hs. exists s'. split; [ reflexivity | split; assumption ].
Qed.

(** X9.  The ['fullscreenchange'] listener makes the fullscreen button
    show the player's state: afterwards [currentIcon] is ["full_exit"] in
    fullscreen and ["full"] otherwise, whatever it was, and the listener
    does nothing when the button already shows it.  In particular, after a
    click whose host call returned and switched the player's fullscreen
    state, the notification that follows changes nothing and fetches
    nothing. *)
Theorem fullscreenchange_shows_player_state :
  forall s : State,
    let icon := if isFullscreen (player s) then "full_exit" else "full" in
    (exists s', on_fullscreenchange s = (Normal tt, s')
                /\ currentIcon (this s') = Some icon
                /\ player s' = player s)
    /\ (currentIcon (this s) = Some icon -> on_fullscreenchange s = (Normal tt, s))
    /\ (forall (log : bool) (exitFs reqFs : HostCall) (v : value) (p' : Player),
           (if isFullscreen (player s) then exitFs else reqFs) (player s) = (Normal v, p') ->
           isFullscreen p' = negb (isFullscreen (player s)) ->
           let s1 := snd (fsBtn_onClick log exitFs reqFs s) in
           on_fullscreenchange s1 = (Normal tt, s1)).
Proof.
  assert (Hsame : forall s0 : State,
             currentIcon (this s0)
             = Some (if isFullscreen (player s0) then "full_exit" else "full") ->
             on_fullscreenchange s0 = (Normal tt, s0)).
  { intros s0 H. unfold on_fullscreenchange, bind, gets.
    rewrite (updateIcon_same s0 _ H). reflexivity. }
  intros s icon. split; [ | split ].
  - unfold on_fullscreenchange, bind, gets. fold icon.
    assert (Hne : icon <> "") by (subst icon; destruct (isFullscreen (player s)); discriminate).
    destruct (updateIcon_sets s icon Hne) as (s2 & Hu & Hc).
    destruct (updateIcon_frame (Some icon) s) as (s2' & Hu' & Hp & _ & _ & _ & _ & _ & Hd).
    rewrite Hu in Hu'. inversion Hu'. subst s2'.
    rewrite Hu, Hd. exists s2. split; [ reflexivity | split; assumption ].
  - apply Hsame.
  - intros log exitFs reqFs v p' Hcall Hswitch s1.
    destruct (fsBtn_click_returned log exitFs reqFs s v p' Hcall) as (s' & Hs & Hp & Hc).
    subst s1. rewrite Hs. cbn [snd]. apply Hsame.
    rewrite Hc, Hp, Hswitch. destruct (isFullscreen (player s)); reflexivity.
Qed.

(** The host's [requestFullscreen] when it enters fullscreen at once. *)
Definition host_enters_fullscreen : HostCall :=
  fun p => (Normal (Promise Fulfilled),
            mkPlayer (muted p) (volume p) true (playbackRate p)
                     (BigPlayButton p) (player_el p)).

(** A click that enters fullscreen, then the notification; and the
    notification on a button that already shows ["full"]. *)
Lemma fullscreenchange_shows_player_state_witness :
  (let s1 := snd (fsBtn_onClick true host_ok host_enters_fullscreen (fs_page true)) in
   on_fullscreenchange s1 = (Normal tt, s1))
  /\ on_fullscreenchange (fs_page true) = (Normal tt, fs_page true).
Proof.
  split.
  - refine (proj2 (proj2 (fullscreenchange_shows_player_state (fs_page true)))
                  true host_ok host_enters_fullscreen (Promise Fulfilled)
                  (snd (host_enters_fullscreen sample_player)) _ _); reflexivity.
  - refine (proj1 (proj2 (fullscreenchange_shows_player_state (fs_page true))) _).
    reflexivity.
Defined.

(** ** Picture-in-picture *)

(** Unfold the picture-in-picture code down to the state monad. *)
Ltac unfold_pip :=
  unfold pipBtn_onClick, enterPiP, exitPiP, platform_requestPiP, platform_exitPiP,
    async, await, try_catch, bind, gets, throw, ret, logIf, modify, discard.

(** X10.  [enterPiP] and [exitPiP] never throw to their caller: they answer
    a promise.  Entering while some element of the page is in
    picture-in-picture does nothing at all, whatever the video element and
    the platform's support; exiting while none is does nothing either, and
    the platform is not called.  A successful enter puts the video
    element in the document's picture-in-picture slot, a refused one
    leaves the document as it was, and a successful exit after a
    successful enter empties the slot again. *)
Theorem pip_helpers_answer_promises :
  forall (videoEl : option VideoEl) (exit_outcome : settlement) (s : State),
    (exists p, fst (enterPiP videoEl s) = Normal (Promise p))
    /\ (exists p, fst (exitPiP exit_outcome s) = Normal (Promise p))
    /\ (forall active,
           pictureInPictureElement (document s) = Some active ->
           enterPiP videoEl s = (Normal (Promise Fulfilled), s))
    /\ (pictureInPictureElement (document s) = None ->
        exitPiP exit_outcome s = (Normal (Promise Fulfilled), s))
    /\ (forall v outcome,
           pictureInPictureElement (document s) = None ->
           pictureInPictureEnabled (document s) = true ->
           videoEl = Some v ->
           requestPictureInPicture v = Some outcome ->
           match outcome with
           | Fulfilled =>
               let s1 := snd (enterPiP videoEl s) in
               fst (enterPiP videoEl s) = Normal (Promise Fulfilled)
               /\ pictureInPictureElement (document s1) = Some (video_id v)
               /\ enterPiP videoEl s1 = (Normal (Promise Fulfilled), s1)
               /\ document (snd (exitPiP Fulfilled s1)) = document s
           | Rejected e =>
               enterPiP videoEl s = (Normal (Promise (Rejected e)), s)
           end).
Proof.
  intros videoEl exit_outcome s.
  split; [ | split; [ | split; [ | split ] ] ].
  - unfold_pip.
    destruct (pictureInPictureElement (document s));
      [ | destruct (pictureInPictureEnabled (document s));
          [ destruct videoEl as [v |];
            [ destruct (requestPictureInPicture v) as [[| e] |] | ] | ] ];
      cbn; eexists; reflexivity.
  - unfold_pip.
    destruct (pictureInPictureElement (document s)); [ destruct exit_outcome | ];
      cbn; eexists; reflexivity.
  - intros active H. unfold_pip. rewrite H. reflexivity.
  - intro H. unfold_pip. rewrite H. reflexivity.
  - intros v outcome Hnone Hon Hv Hm. subst videoEl.
    destruct outcome as [| e].
    + unfold_pip. rewrite Hnone, Hon, Hm. cbn.
      repeat split. destruct (document s) as [pe en]. cbn in *. subst. reflexivity.
    + unfold_pip. rewrite Hnone, Hon, Hm. reflexivity.
Qed.

(** A page where picture-in-picture is allowed and a video element that
    supports it. *)
Definition pip_ready_page (log : bool) : State :=
  set_document (mkDocument None true) (pip_page log).

Definition willing_video : VideoEl := mkVideoEl "video" (Some Fulfilled).

Definition refusing_video : VideoEl :=
  mkVideoEl "video" (Some (Rejected (HostError "NotAllowedError"))).

(** Enter, enter again, exit; a refused enter; an exit with nothing to
    exit from. *)
Lemma pip_helpers_answer_promises_witness :
  pictureInPictureElement (document (snd (enterPiP (Some willing_video) (pip_ready_page true))))
  = Some "video"
  /\ enterPiP (Some refusing_video) (pip_ready_page true)
     = (Normal (Promise (Rejected (HostError "NotAllowedError"))), pip_ready_page true)
  /\ exitPiP (Rejected (HostError "never called")) (pip_ready_page true)
     = (Normal (Promise Fulfilled), pip_ready_page true)
  /\ enterPiP None (set_document (mkDocument (Some "other") false) (pip_page true))
     = (Normal (Promise Fulfilled),
        set_document (mkDocument (Some "other") false) (pip_page true)).
Proof.
  pose proof (pip_helpers_answer_promises (Some willing_video) Fulfilled
                                          (pip_ready_page true)) as H1.
  pose proof (pip_helpers_answer_promises (Some refusing_video) Fulfilled
                                          (pip_ready_page true)) as H2.
  pose proof (pip_helpers_answer_promises None (Rejected (HostError "never called"))
                                          (pip_ready_page true)) as H3.
  pose proof (pip_helpers_answer_promises
                None Fulfilled
                (set_document (mkDocument (Some "other") false) (pip_page true))) as H4.
  destruct H1 as (_ & _ & _ & _ & H1).
  destruct H2 as (_ & _ & _ & _ & H2).
  destruct H3 as (_ & _ & _ & H3 & _).
  destruct H4 as (_ & _ & H4 & _).
  split; [ | split; [ | split ] ].
  - exact (proj1 (proj2 (H1 willing_video Fulfilled eq_refl eq_refl eq_refl eq_refl))).
  - exact (H2 refusing_video (Rejected (HostError "NotAllowedError"))
              eq_refl eq_refl eq_refl eq_refl).
  - exact (H3 eq_refl).
  - exact (H4 "other" eq_refl).
Defined.

(** X11.  The picture-in-picture handler never rejects and never throws:
    whatever the video element, the platform's support and the platform's
    answers, its promise is fulfilled, the click leaves no rejection
    unhandled, and [handleClick] returns normally with the same state. *)
Theorem pip_click_never_rejects :
  forall (log : bool) (techEl : option VideoEl) (exit_outcome : settlement) (s : State),
    exists s',
      pipBtn_onClick log techEl exit_outcome s = (Normal (Promise Fulfilled), s')
      /\ handleClick (Some (pipBtn_onClick log techEl exit_outcome)) s = (Normal tt, s')
      /\ unhandled s' = unhandled s
      /\ player s' = player s.
Proof.
  intros log techEl exit_outcome s.
  assert (H : exists s',
             pipBtn_onClick log techEl exit_outcome s = (Normal (Promise Fulfilled), s')
             /\ unhandled s' = unhandled s /\ player s' = player s).
  { unfold_pip. unfold updateIcon.
    destruct (pictureInPictureElement (document s)) as [active |] eqn:Ha;
      cbn; rewrite ?Ha; cbn.
    - destruct exit_outcome as [| e]; cbn.
      + destruct (strict_eq "pip" (currentIcon (this s))); cbn;
          eexists; repeat split; reflexivity.
      + destruct log; cbn; eexists; repeat split; reflexivity.
    - destruct (pictureInPictureEnabled (document s)) eqn:Hon; cbn; rewrite ?Hon; cbn;
        [ destruct techEl as [v |];
          [ destruct (requestPictureInPicture v) as [[| e] |] | ] | ];
        cbn;
        try (destruct (strict_eq "pip_exit" (currentIcon (this s))); cbn;
             eexists; repeat split; reflexivity);
        destruct log; cbn; eexists; repeat split; reflexivity. }
  destruct H as (s' & Hc & Hu & Hp).
  exists s'. split; [ exact Hc | split; [ | split; assumption ] ].
  unfold handleClick, try_catch, bind. rewrite Hc. reflexivity.
Qed.

(** X12.  The picture-in-picture button flips its icon only once the
    platform has confirmed.  With an element in picture-in-picture, a
    click exits: on success the document's slot is empty and
    [currentIcon] is ["pip"]; on refusal document and button are as
    before.  With none, and a video element that supports it, a click
    enters: on success the slot holds the video element and
    [currentIcon] is ["pip_exit"]; on refusal document and button are as
    before.  A refusal, and a missing video element, are logged when the
    plugin's [log] option is on, and then only. *)
Theorem pip_click_flips_on_confirmation :
  forall (log : bool) (techEl : option VideoEl) (exit_outcome : settlement) (s : State),
    let s' := snd (pipBtn_onClick log techEl exit_outcome s) in
    let refused (e : error) :=
        document s' = document s /\ this s' = this s /\ requests s' = requests s
        /\ console s'
           = console s ++ (if log then [[LStr "[vjs-custom]"; LStr "PiP error"; LErr e]]
                           else []) in
    (forall active,
        pictureInPictureElement (document s) = Some active ->
        match exit_outcome with
        | Fulfilled =>
            pictureInPictureElement (document s') = None
            /\ currentIcon (this s') = Some "pip"
            /\ console s' = console s
        | Rejected e => refused e
        end)
    /\ (forall v outcome,
           pictureInPictureElement (document s) = None ->
           pictureInPictureEnabled (document s) = true ->
           techEl = Some v ->
           requestPictureInPicture v = Some outcome ->
           match outcome with
           | Fulfilled =>
               pictureInPictureElement (document s') = Some (video_id v)
               /\ currentIcon (this s') = Some "pip_exit"
               /\ console s' = console s
           | Rejected e => refused e
           end)
    /\ (pictureInPictureElement (document s) = None ->
        pictureInPictureEnabled (document s) = true ->
        techEl = None ->
        refused (TypeError "Cannot read properties of undefined (reading 'requestPictureInPicture')")).
Proof.
  intros log techEl exit_outcome s s' refused. subst s' refused.
  split; [ | split ].
  - intros active H. unfold_pip. unfold updateIcon.
    rewrite H; cbn; rewrite ?H; cbn.
    destruct exit_outcome as [| e]; cbn.
    + destruct (strict_eq "pip" (currentIcon (this s))) eqn:E; cbn.
      * split; [ reflexivity | split; [ | reflexivity ] ].
        unfold strict_eq in E.
        destruct (currentIcon (this s)) as [c |]; [ | discriminate E ].
        apply String.eqb_eq in E. now subst.
      * split; [ reflexivity | split; reflexivity ].
    + destruct log; cbn; rewrite ?app_nil_r;
        (split; [ reflexivity | split; [ reflexivity | split; reflexivity ] ]).
  - intros v outcome Hnone Hon Hv Hm. subst techEl.
    unfold_pip. unfold updateIcon.
    rewrite Hnone; cbn; rewrite ?Hnone, ?Hon, ?Hm; cbn.
    destruct outcome as [| e]; cbn.
    + destruct (strict_eq "pip_exit" (currentIcon (this s))) eqn:E; cbn.
      * split; [ reflexivity | split; [ | reflexivity ] ].
        unfold strict_eq in E.
        destruct (currentIcon (this s)) as [c |]; [ | discriminate E ].
        apply String.eqb_eq in E. now subst.
      * split; [ reflexivity | split; reflexivity ].
    + destruct log; cbn; rewrite ?app_nil_r;
        (split; [ reflexivity | split; [ reflexivity | split; reflexivity ] ]).
  - intros Hnone Hon Hv. subst techEl.
    unfold_pip.
    rewrite Hnone; cbn; rewrite ?Hnone, ?Hon; cbn.
    destruct log; cbn; rewrite ?app_nil_r;
      (split; [ reflexivity | split; [ reflexivity | split; reflexivity ] ]).
Qed.

(** A willing platform, then the next click to leave; and a refusing one,
    logging off. *)
Lemma pip_click_flips_on_confirmation_witness :
  (let s1 := snd (pipBtn_onClick true (Some willing_video) Fulfilled (pip_ready_page true)) in
   currentIcon (this s1) = Some "pip_exit"
   /\ pictureInPictureElement
        (document (snd (pipBtn_onClick true (Some willing_video) Fulfilled s1))) = None)
  /\ this (snd (pipBtn_onClick false (Some refusing_video) Fulfilled (pip_ready_page false)))
     = this (pip_ready_page false)
  /\ console (snd (pipBtn_onClick true None Fulfilled (pip_ready_page true)))
     = [[LStr "[vjs-custom]"; LStr "PiP error";
         LErr (TypeError "Cannot read properties of undefined (reading 'requestPictureInPicture')")]].
Proof.
  pose proof (pip_click_flips_on_confirmation true (Some willing_video) Fulfilled
                                              (pip_ready_page true)) as H1.
  pose proof (pip_click_flips_on_confirmation
                true (Some willing_video) Fulfilled
                (snd (pipBtn_onClick true (Some willing_video) Fulfilled
                                     (pip_ready_page true)))) as H2.
  pose proof (pip_click_flips_on_confirmation false (Some refusing_video) Fulfilled
                                              (pip_ready_page false)) as H3.
  pose proof (pip_click_flips_on_confirmation true None Fulfilled
                                              (pip_ready_page true)) as H4.
  cbv zeta in H1, H2, H3, H4.
  destruct H1 as (_ & H1 & _).
  destruct H2 as (H2 & _).
  destruct H3 as (_ & H3 & _).
  destruct H4 as (_ & _ & H4).
  split; [ split | split ].
  - exact (proj1 (proj2 (H1 willing_video Fulfilled eq_refl eq_refl eq_refl eq_refl))).
  - exact (proj1 (H2 "video" eq_refl)).
  - exact (proj1 (proj2 (H3 refusing_video (Rejected (HostError "NotAllowedError"))
                            eq_refl eq_refl eq_refl eq_refl))).
  - exact (proj2 (proj2 (proj2 (H4 eq_refl eq_refl eq_refl)))).
Defined.

(** ** The gear button and the menu *)

Lemma set_nth_length {A : Type} (l : list A) (i : nat) (x : A) :
  List.length (set_nth l i x) = List.length l.
Proof.
  revert i. induction l as [| h t IH]; intro i; [ reflexivity | ].
  destruct i; cbn; [ reflexivity | now rewrite IH ].
Qed.

Lemma nth_error_set_nth {A : Type} (l : list A) (i : nat) (x y : A) :
  nth_error l i = Some y -> nth_error (set_nth l i x) i = Some x.
Proof.
  revert i. induction l as [| h t IH]; intros i H; [ destruct i; discriminate H | ].
  destruct i; cbn in *; [ reflexivity | apply IH; exact H ].
Qed.

Lemma update_length (ks : list node) (p : path) (f : node -> node) :
  List.length (update ks p f) = List.length ks.
Proof.
  destruct p as [| i p']; [ reflexivity | ]. cbn.
  destruct (nth_error ks i) as [n |]; [ | reflexivity ].
  destruct p' as [| x q]; [ apply set_nth_length | ].
  destruct n; [ reflexivity | apply set_nth_length ].
Qed.

Lemma update_cons_S (k : node) (ks : list node) (j : nat) (q : path) (f : node -> node) :
  update (k :: ks) (S j :: q) f = k :: update ks (j :: q) f.
Proof.
  cbn. destruct (nth_error ks j) as [n |]; [ | reflexivity ].
  destruct q as [| x q']; [ reflexivity | ].
  destruct n; reflexivity.
Qed.

(** The node at a path after the node there was rewritten. *)
Lemma lookup_update (f : node -> node) (p : path) :
  forall (ks : list node) (n : node),
    lookup ks p = Some n -> lookup (update ks p f) p = Some (f n).
Proof.
  induction p as [| i p' IH]; intros ks n H; [ discriminate H | ].
  cbn in H. destruct (nth_error ks i) as [m |] eqn:E; [ | discriminate H ].
  destruct p' as [| x q].
  - inversion H; subst m. cbn. rewrite E.
    rewrite (nth_error_set_nth ks i (f n) n E). reflexivity.
  - destruct m as [d | t cl a ls kids]; [ discriminate H | ].
    cbn [update]. rewrite E.
    cbn [lookup].
    rewrite (nth_error_set_nth ks i _ _ E).
    apply IH. exact H.
Qed.

Section ClassKept.
Variable c : string.
Variable f : node -> node.
Hypothesis f_keeps :
  forall t cl a ls kids,
    has_class c cl = true ->
    exists cl', f (Elem t cl a ls kids) = Elem t cl' a ls kids /\ has_class c cl' = true.

Lemma find_class_here (n : node) :
  find_class c n = Some [] ->
  exists t cl a ls kids, n = Elem t cl a ls kids /\ has_class c cl = true.
Proof.
  destruct n as [d | t cl a ls kids]; [ discriminate | ].
  rewrite find_class_elem. destruct (has_class c cl) eqn:E.
  - intros _. exists t, cl, a, ls, kids. split; [ reflexivity | exact E ].
  - intro H. exfalso.
    destruct kids as [| k ks]; [ discriminate H | ].
    cbn in H.
    assert (Hne : forall i ks0 q, find_class_in c i ks0 = Some q -> q <> []).
    { intros i ks0. revert i. induction ks0 as [| k0 ks0 IH]; intros i q Hq; [ discriminate Hq | ].
      cbn in Hq. destruct (find_class c k0); [ inversion Hq; discriminate | ].
      apply (IH (S i)). exact Hq. }
    destruct (find_class c k) as [q |]; [ discriminate H | ].
    apply (Hne 1%nat ks [] H). reflexivity.
Qed.

Lemma find_class_in_update (ks : list node) :
  Forall (fun n => forall t cl a ls kids x q,
              n = Elem t cl a ls kids ->
              find_class c n = Some (x :: q) ->
              find_class c (Elem t cl a ls (update kids (x :: q) f)) = Some (x :: q)) ks ->
  forall i p, find_class_in c i ks = Some p ->
              exists j q, p = (i + j)%nat :: q
                          /\ find_class_in c i (update ks (j :: q) f) = Some p.
Proof.
  induction 1 as [| k ks Hk Hks IH]; intros i p Hf; [ discriminate Hf | ].
  cbn in Hf. destruct (find_class c k) as [q0 |] eqn:E.
  - inversion Hf; subst p. exists 0%nat, q0. rewrite Nat.add_0_r. split; [ reflexivity | ].
    destruct q0 as [| x q].
    + destruct (find_class_here k E) as (t & cl & a & ls & kids & Hn & Hc). subst k.
      destruct (f_keeps t cl a ls kids Hc) as (cl' & Hfk & Hc').
      change (update (Elem t cl a ls kids :: ks) [0%nat] f)
        with (f (Elem t cl a ls kids) :: ks).
      rewrite Hfk.
      cbn [find_class_in]. rewrite find_class_elem, Hc'. reflexivity.
    + destruct k as [d | t cl a ls kids]; [ discriminate E | ].
      change (update (Elem t cl a ls kids :: ks) (0%nat :: x :: q) f)
        with (Elem t cl a ls (update kids (x :: q) f) :: ks).
      change (find_class_in c i (Elem t cl a ls (update kids (x :: q) f) :: ks))
        with (match find_class c (Elem t cl a ls (update kids (x :: q) f)) with
              | Some p => Some (i :: p)
              | None => find_class_in c (S i) ks
              end).
      rewrite (Hk t cl a ls kids x q eq_refl eq_refl). reflexivity.
  - destruct (IH (S i) p Hf) as (j & q & Hp & Hu).
    exists (S j), q. split; [ rewrite Hp; f_equal; lia | ].
    rewrite update_cons_S. cbn [find_class_in]. rewrite E. exact Hu.
Qed.

Lemma find_class_update (n : node) :
  forall t cl a ls kids x q,
    n = Elem t cl a ls kids ->
    find_class c n = Some (x :: q) ->
    find_class c (Elem t cl a ls (update kids (x :: q) f)) = Some (x :: q).
Proof.
  induction n as [d | t0 cl0 a0 ls0 kids0 IH] using node_induction;
    intros t cl a ls kids x q Hn Hf; [ discriminate Hn | ].
  inversion Hn; subst t0 cl0 a0 ls0 kids0.
  rewrite find_class_elem in Hf. rewrite find_class_elem.
  destruct (has_class c cl); [ discriminate Hf | ].
  destruct (find_class_in_update kids IH 0%nat (x :: q) Hf) as (j & q' & Hp & Hu).
  cbn in Hp. inversion Hp; subst j q'. exact Hu.
Qed.

(** Rewriting the first element with class [c] so that it keeps the
    class leaves it the first element with class [c]. *)
Lemma querySelector_update (ks : list node) (p : path) :
  querySelector c ks = Some p -> querySelector c (update ks p f) = Some p.
Proof.
  unfold querySelector. intro H.
  assert (Hall : Forall (fun n => forall t cl a ls kids x q,
                             n = Elem t cl a ls kids ->
                             find_class c n = Some (x :: q) ->
                             find_class c (Elem t cl a ls (update kids (x :: q) f))
                             = Some (x :: q)) ks).
  { apply Forall_forall. intros n _. apply find_class_update. }
  destruct (find_class_in_update ks Hall 0%nat p H) as (j & q & Hp & Hu).
  cbn in Hp. subst p. exact Hu.
Qed.
End ClassKept.

(** Whether the settings menu is hidden: read off the class list of the
    first element with the marker class; [None] when there is none. *)
Definition menu_hidden (s : State) : option bool :=
  match querySelector "vjs-settings-menu" (player_el (player s)) with
  | Some m =>
      match lookup (player_el (player s)) m with
      | Some (Elem _ cl _ _ _) => Some (has_class "hidden" cl)
      | _ => None
      end
  | None => None
  end.

(** A click of the user on the gear button. *)
Definition gear_click (s : State) : State :=
  snd (handleClick (Some gearBtn_onClick) s).

Lemma has_class_app (c : string) (cl : list string) (x : string) :
  has_class c (cl ++ [x]) = has_class c cl || String.eqb c x.
Proof. unfold has_class. rewrite existsb_app. cbn. rewrite orb_false_r. reflexivity. Qed.

Lemma has_class_filter (c x : string) (cl : list string) :
  has_class c (filter (fun t => negb (String.eqb x t)) cl)
  = has_class c cl && negb (String.eqb c x).
Proof.
  unfold has_class. induction cl as [| t cl IH]; [ reflexivity | ].
  cbn. destruct (String.eqb x t) eqn:Ex; cbn.
  - rewrite IH. apply String.eqb_eq in Ex. subst t.
    destruct (String.eqb c x); cbn; [ rewrite andb_false_r; reflexivity | reflexivity ].
  - rewrite IH. destruct (String.eqb c t) eqn:Ec; cbn; [ | reflexivity ].
    apply String.eqb_eq in Ec. subst t.
    rewrite String.eqb_sym in Ex. rewrite Ex. reflexivity.
Qed.

(** What [classList.toggle('hidden')] does to the classes. *)
Lemma toggle_hidden_classes (cl : list string) :
  fst (toggle "hidden" cl) = negb (has_class "hidden" cl)
  /\ has_class "hidden" (snd (toggle "hidden" cl)) = negb (has_class "hidden" cl)
  /\ has_class "vjs-settings-menu" (snd (toggle "hidden" cl))
     = has_class "vjs-settings-menu" cl.
Proof.
  unfold toggle. destruct (has_class "hidden" cl) eqn:E; cbn [fst snd negb].
  - split; [ reflexivity | split ].
    + rewrite has_class_filter, String.eqb_refl. apply andb_false_r.
    + rewrite has_class_filter. cbn. apply andb_true_r.
  - split; [ reflexivity | split ].
    + rewrite has_class_app, String.eqb_refl. apply orb_true_r.
    + rewrite has_class_app. cbn. apply orb_false_r.
Qed.

(** The menu [ensureSettingsMenu] answers is the first element with the
    marker class of the page it leaves. *)
Lemma ensureSettingsMenu_found (s : State) :
  exists m t cl a ls kids,
    ensureSettingsMenu s = (Normal m, snd (ensureSettingsMenu s))
    /\ querySelector "vjs-settings-menu" (player_el (player (snd (ensureSettingsMenu s))))
       = Some m
    /\ lookup (player_el (player (snd (ensureSettingsMenu s)))) m
       = Some (Elem t cl a ls kids)
    /\ has_class "vjs-settings-menu" cl = true
    /\ this (snd (ensureSettingsMenu s)) = this s
    /\ (querySelector "vjs-settings-menu" (player_el (player s)) = None ->
        has_class "hidden" cl = true)
    /\ (List.length (player_el (player (snd (ensureSettingsMenu s))))
        <= S (List.length (player_el (player s))))%nat.
Proof.
  unfold ensureSettingsMenu.
  destruct (querySelector "vjs-settings-menu" (player_el (player s))) as [q |] eqn:E.
  - destruct (querySelector_sound _ _ _ E) as (t & cl & a & ls & kids & Hl & Hc).
    exists q, t, cl, a, ls, kids. cbn [snd].
    repeat split; try assumption; try reflexivity.
    + intro H; discriminate H.
    + lia.
  - do 6 eexists. cbn [snd player set_player player_el set_player_el this].
    split; [ reflexivity | split; [ | split; [ apply lookup_snoc | ] ] ].
    + unfold querySelector in *. rewrite (find_class_in_snoc _ _ _ 0%nat E). reflexivity.
    + repeat split. rewrite length_app. cbn. lia.
Qed.

(** One click on the gear, in full. *)
Lemma gear_click_step (s : State) :
  exists m h s',
    ensureSettingsMenu s = (Normal m, snd (ensureSettingsMenu s))
    /\ menu_hidden (snd (ensureSettingsMenu s)) = Some h
    /\ gearBtn_onClick s = (Normal Undefined, s')
    /\ querySelector "vjs-settings-menu" (player_el (player s')) = Some m
    /\ menu_hidden s' = Some (negb h)
    /\ currentIcon (this s') = Some (if h then "gear_open" else "gear")
    /\ List.length (player_el (player s'))
       = List.length (player_el (player (snd (ensureSettingsMenu s))))
    /\ (querySelector "vjs-settings-menu" (player_el (player s)) = None -> h = true).
Proof.
  destruct (ensureSettingsMenu_found s)
    as (m & t & cl & a & ls & kids & He & Hq & Hl & Hc & Ht & Hnew & _).
  set (e := snd (ensureSettingsMenu s)) in *.
  set (f := fun n : node =>
              match n with
              | Elem t0 _ a0 ls0 k0 => Elem t0 (snd (toggle "hidden" cl)) a0 ls0 k0
              | Text d => Text d
              end).
  destruct (toggle_hidden_classes cl) as (Hfst & Hhid & Hmark).
  set (e' := set_player (set_player_el (update (player_el (player e)) m f) (player e)) e).
  assert (Htog : toggle_hidden m e = (Normal (fst (toggle "hidden" cl)), e')).
  { unfold toggle_hidden. rewrite Hl. reflexivity. }
  assert (Hq' : querySelector "vjs-settings-menu" (player_el (player e')) = Some m).
  { subst e'. cbn [player set_player player_el set_player_el].
    apply querySelector_update; [ | exact Hq ].
    intros t0 cl0 a0 ls0 k0 _. exists (snd (toggle "hidden" cl)).
    split; [ reflexivity | rewrite Hmark; exact Hc ]. }
  assert (Hl' : lookup (player_el (player e')) m
                = Some (Elem t (snd (toggle "hidden" cl)) a ls kids)).
  { subst e'. cbn [player set_player player_el set_player_el].
    rewrite (lookup_update f m _ _ Hl). reflexivity. }
  set (icon := if negb (fst (toggle "hidden" cl)) then "gear_open" else "gear").
  assert (Hne : icon <> "")
    by (subst icon; destruct (negb (fst (toggle "hidden" cl))); discriminate).
  destruct (updateIcon_sets e' icon Hne) as (s' & Hu & Hcur).
  destruct (updateIcon_frame (Some icon) e') as (s2 & Hu' & Hp & _ & _ & _ & _ & _ & Hd).
  rewrite Hu in Hu'. inversion Hu'. subst s2.
  exists m, (has_class "hidden" cl), s'.
  split; [ exact He | split; [ | split; [ | split; [ | split; [ | split; [ | split ] ] ] ] ] ].
  - unfold menu_hidden. rewrite Hq, Hl. reflexivity.
  - unfold gearBtn_onClick.
    unfold bind at 1. rewrite He.
    unfold bind at 1. rewrite Htog.
    unfold bind at 1. fold icon. rewrite Hu.
    unfold bind at 1. rewrite Hd. reflexivity.
  - rewrite Hp. exact Hq'.
  - unfold menu_hidden. rewrite Hp, Hq', Hl', Hhid. reflexivity.
  - rewrite Hcur. subst icon. rewrite Hfst, negb_involutive. reflexivity.
  - rewrite Hp. subst e'. cbn [player set_player player_el set_player_el].
    apply update_length.
  - exact Hnew.
Qed.

Lemma gear_click_is_callback (s s' : State) :
  gearBtn_onClick s = (Normal Undefined, s') -> gear_click s = s'.
Proof.
  intro H. unfold gear_click, handleClick, try_catch, bind. rewrite H. reflexivity.
Qed.

Lemma ensureSettingsMenu_present (s : State) (m : path) :
  querySelector "vjs-settings-menu" (player_el (player s)) = Some m ->
  ensureSettingsMenu s = (Normal m, s).
Proof. intro H. unfold ensureSettingsMenu. rewrite H. reflexivity. Qed.

(** X13.  A click on the gear never throws and keeps one settings menu:
    the menu is created by the first click that finds none, hidden, and
    every click then inverts its visibility and shows ["gear_open"] when
    the menu has become visible and ["gear"] when it has become hidden.
    However many clicks follow, the root has at most one child more than
    before the first, and two clicks leave the menu as visible as it was. *)
Theorem gear_click_toggles_the_one_menu :
  forall s : State,
    let e := snd (ensureSettingsMenu s) in
    (exists h : bool,
        menu_hidden e = Some h
        /\ fst (handleClick (Some gearBtn_onClick) s) = Normal tt
        /\ menu_hidden (gear_click s) = Some (negb h)
        /\ currentIcon (this (gear_click s)) = Some (if h then "gear_open" else "gear")
        /\ menu_hidden (gear_click (gear_click s)) = Some h
        /\ (querySelector "vjs-settings-menu" (player_el (player s)) = None -> h = true))
    /\ (forall n : nat,
           List.length (player_el (player (iterate (S n) gear_click s)))
           = List.length (player_el (player e))
           /\ (List.length (player_el (player (iterate n gear_click s)))
               <= S (List.length (player_el (player s))))%nat).
Proof.
  intros s e.
  destruct (gear_click_step s) as (m & h & s' & He & Hh & Hcb & Hq & Hh' & Hc & Hlen & Hnew).
  pose proof (gear_click_is_callback s s' Hcb) as Hg.
  assert (Hkeep : forall s0 m0,
             querySelector "vjs-settings-menu" (player_el (player s0)) = Some m0 ->
             querySelector "vjs-settings-menu" (player_el (player (gear_click s0))) = Some m0
             /\ List.length (player_el (player (gear_click s0)))
                = List.length (player_el (player s0))).
  { intros s0 m0 H0.
    destruct (gear_click_step s0) as (m1 & h1 & s1 & He1 & _ & Hcb1 & Hq1 & _ & _ & Hlen1 & _).
    rewrite (gear_click_is_callback s0 s1 Hcb1).
    rewrite (ensureSettingsMenu_present s0 m0 H0) in He1, Hlen1.
    inversion He1. subst m1. cbn [snd] in Hlen1. split; assumption. }
  assert (Hiter : forall n,
             querySelector "vjs-settings-menu"
                           (player_el (player (iterate (S n) gear_click s))) = Some m
             /\ List.length (player_el (player (iterate (S n) gear_click s)))
                = List.length (player_el (player e))).
  { induction n as [| n [IHq IHl]].
    - cbn [iterate]. rewrite Hg. split; [ exact Hq | exact Hlen ].
    - change (iterate (S (S n)) gear_click s)
        with (gear_click (iterate (S n) gear_click s)).
      destruct (Hkeep _ m IHq) as [Hq2 Hl2]. split; [ exact Hq2 | congruence ]. }
  split.
  - exists h. split; [ exact Hh | split; [ | split; [ | split; [ | split ] ] ] ].
    + unfold handleClick, try_catch, bind. rewrite Hcb. reflexivity.
    + rewrite Hg. exact Hh'.
    + rewrite Hg. exact Hc.
    + rewrite Hg.
      destruct (gear_click_step s') as (m2 & h2 & s2 & He2 & Hh2 & Hcb2 & _ & Hh2' & _).
      rewrite (gear_click_is_callback s' s2 Hcb2).
      rewrite (ensureSettingsMenu_present s' m Hq) in Hh2. cbn [snd] in Hh2.
      rewrite Hh' in Hh2. inversion Hh2. subst h2.
      rewrite Hh2', negb_involutive. reflexivity.
    + exact Hnew.
  - intro n. split; [ apply Hiter | ].
    destruct (ensureSettingsMenu_found s) as (_ & _ & _ & _ & _ & _ & _ & _ & _ & _ & _ & _ & Hle).
    fold e in Hle.
    destruct n as [| n]; [ cbn; lia | ].
    destruct (Hiter n) as [_ Hl]. rewrite Hl. exact Hle.
Qed.

(** On the sample page: the first click creates the menu and shows it, the
    second hides it again. *)
Lemma gear_click_toggles_the_one_menu_witness :
  menu_hidden (gear_click fresh_page) = Some false
  /\ menu_hidden (gear_click (gear_click fresh_page)) = Some true
  /\ List.length (player_el (player (iterate 3 gear_click fresh_page))) = 3%nat.
Proof.
  pose proof (gear_click_toggles_the_one_menu fresh_page) as H.
  cbv zeta in H. destruct H as [(h & Hh & _ & H1 & _ & H2 & Hnew) Hn].
  assert (Ht : h = true) by (apply Hnew; reflexivity).
  subst h.
  split; [ exact H1 | split; [ exact H2 | exact (proj1 (Hn 2%nat)) ] ].
Defined.

(** X14.  Only the playback-speed row steps the rate.  A click on the
    menu's heading, on its quality row or on the menu itself runs the
    listener and changes nothing: not the player's rate, not a text of
    the menu, nothing else of the page. *)
Theorem click_outside_rate_row_changes_nothing :
  forall (Number_toString : float -> string) (s : State) (i : nat)
         (cl : list string) (txt : string) (target : path),
    nth_error (player_el (player s)) i = Some (menu_showing cl txt) ->
    In target [[i]; [i; 0]; [i; 0; 0]; [i; 2]; [i; 2; 0]; [i; 2; 1]; [i; 2; 1; 0]]%nat ->
    listeners_on (player_el (player s)) target = [SettingsClick]
    /\ click Number_toString target s = s.
Proof.
  intros ts s i cl txt target Hmenu Htarget.
  assert (Hl : listeners_on (player_el (player s)) target = [SettingsClick]).
  { destruct Htarget as [<- | [<- | [<- | [<- | [<- | [<- | [<- | []]]]]]]];
      cbn; rewrite Hmenu; reflexivity. }
  split; [ exact Hl | ].
  unfold click. rewrite Hl. cbn [run_listeners run_listener].
  assert (Hc : settings_click ts target s = (Normal tt, s)).
  { unfold settings_click, closest.
    destruct Htarget as [<- | [<- | [<- | [<- | [<- | [<- | [<- | []]]]]]]];
      cbn; repeat (rewrite Hmenu; cbn);
      try destruct (has_class "vjs-settings-item" cl);
      cbn; repeat (rewrite Hmenu; cbn); reflexivity. }
  rewrite Hc. reflexivity.
Qed.

(** A click on the quality row of a new menu. *)
Lemma click_outside_rate_row_changes_nothing_witness :
  click toString_on_steps [2; 2; 1]%nat (snd (ensureSettingsMenu fresh_page))
  = snd (ensureSettingsMenu fresh_page).
Proof.
  refine (proj2 (click_outside_rate_row_changes_nothing
                   toString_on_steps (snd (ensureSettingsMenu fresh_page)) 2%nat
                   ["vjs-settings-menu"; "hidden"] "1.0x" [2; 2; 1]%nat eq_refl _)).
  cbn. tauto.
Defined.

(** ** Play, pause and stop *)

(** What the play/pause and stop handlers query and change of the host's
    playback, beside the page. *)
Record Playback : Type := mkPlayback {
  paused : bool;
  currentTime : float
}.

Record Page : Type := mkPage {
  page_state : State;
  playback : Playback
}.

(** Statements over the page and the playback. *)
Definition MP (A : Type) : Type := Page -> completion A * Page.

Definition retP {A : Type} (a : A) : MP A := fun pg => (Normal a, pg).

Definition bindP {A B : Type} (m : MP A) (k : A -> MP B) : MP B :=
  fun pg =>
    match m pg with
    | (Normal a, pg') => k a pg'
    | (Abrupt e, pg') => (Abrupt e, pg')
    end.

Definition try_catchP {A : Type} (body : MP A) (handler : error -> MP A) : MP A :=
  fun pg =>
    match body pg with
    | (Normal a, pg') => (Normal a, pg')
    | (Abrupt e, pg') => handler e pg'
    end.

(** A statement on the page alone. *)
Definition liftP {A : Type} (m : M A) : MP A :=
  fun pg => let r := m (page_state pg) in (fst r, mkPage (snd r) (playback pg)).

(** A call into the host's playback: [play()], [pause()],
    [currentTime(t)]. *)
Definition PlaybackCall : Type := Playback -> completion value * Playback.

Definition playback_call (h : PlaybackCall) : MP value :=
  fun pg => let r := h (playback pg) in (fst r, mkPage (page_state pg) (snd r)).

Definition play_pause_icon (pb : Playback) : string :=
  if paused pb then "play" else "pause".

(** The play/pause button's [onClick]. *)
Definition playPause_onClick (play pause : PlaybackCall) : MP value :=
  fun pg =>
    bindP (if paused (playback pg) then playback_call play else playback_call pause)
          (fun r =>
             bindP (liftP (discard r))
                   (fun _ pg1 =>
                      bindP (liftP (updateIcon (Some (play_pause_icon (playback pg1)))))
                            (fun v => bindP (liftP (discard v)) (fun _ => retP Undefined))
                            pg1))
          pg.

(** The listener of ['play'] and ['pause'] for the play/pause button. *)
Definition on_play_pause : MP unit :=
  fun pg =>
    bindP (liftP (updateIcon (Some (play_pause_icon (playback pg)))))
          (fun v => liftP (discard v)) pg.

Definition on_ended_overlay (base : string) : M value := setBigOverlaySVG base "bigstop".

(** The stop button's [onClick]; [log] and [base] are the plugin's
    [opts.log] and [opts.iconBasePath]. *)
Definition stopBtn_onClick (log : bool) (base : string)
           (pause : PlaybackCall) (seek : float -> PlaybackCall) : MP value :=
  bindP
    (try_catchP
       (bindP (playback_call pause)
              (fun r =>
                 bindP (liftP (discard r))
                       (fun _ =>
                          bindP (playback_call (seek 0%float))
                                (fun r2 =>
                                   bindP (liftP (discard r2))
                                         (fun _ =>
                                            bindP (liftP (setBigOverlaySVG base "bigplay"))
                                                  (fun v => liftP (discard v)))))))
       (fun err => liftP (logIf log [LStr "Stop error"; LErr err])))
    (fun _ => retP Undefined).

(** A host that does what it is asked. *)
Definition host_play : PlaybackCall :=
  fun pb => (Normal (Promise Fulfilled), mkPlayback false (currentTime pb)).
Definition host_pause : PlaybackCall :=
  fun pb => (Normal Undefined, mkPlayback true (currentTime pb)).
Definition host_seek (t : float) : PlaybackCall :=
  fun pb => (Normal Undefined, mkPlayback (paused pb) t).

(** A host whose [play()] is refused: the promise rejects and playback
    stays paused. *)
Definition host_play_refused : PlaybackCall :=
  fun pb => (Normal (Promise (Rejected (HostError "NotAllowedError"))), pb).

Definition host_not_seekable (t : float) : PlaybackCall :=
  fun pb => (Abrupt (HostError "not seekable"), pb).

Lemma play_pause_icon_named (pb : Playback) : play_pause_icon pb <> "".
Proof. unfold play_pause_icon. destruct (paused pb); discriminate. Qed.

(** The tail of the play/pause handler, from the dropped result on. *)
Lemma playPause_tail (v : value) (pg : Page) :
  exists s',
    bindP (liftP (discard v))
          (fun _ pg1 =>
             bindP (liftP (updateIcon (Some (play_pause_icon (playback pg1)))))
                   (fun v0 => bindP (liftP (discard v0)) (fun _ => retP Undefined))
                   pg1) pg
    = (Normal Undefined, mkPage s' (playback pg))
    /\ currentIcon (this s') = Some (play_pause_icon (playback pg))
    /\ player s' = player (page_state pg)
    /\ console s' = console (page_state pg)
    /\ on_play_pause (mkPage s' (playback pg)) = (Normal tt, mkPage s' (playback pg)).
Proof.
  destruct (discard_frame v (page_state pg)) as (s1 & D & Dp & _ & _ & _ & Dc & _).
  destruct (updateIcon_sets s1 (play_pause_icon (playback pg))
                            (play_pause_icon_named (playback pg))) as (s2 & Hu & Hc).
  destruct (updateIcon_frame (Some (play_pause_icon (playback pg))) s1)
    as (s2' & Hu' & Hp & Hk & _ & _ & _ & _ & Hd).
  rewrite Hu in Hu'. inversion Hu'. subst s2'.
  exists s2.
  split; [ | split; [ exact Hc | split; [ congruence | split; [ congruence | ] ] ] ].
  - unfold bindP at 1. unfold liftP at 1. rewrite D. cbn [fst snd].
    unfold bindP at 1. unfold liftP at 1. cbn [page_state playback]. rewrite Hu. cbn [fst snd].
    unfold bindP at 1. unfold liftP at 1. cbn [page_state playback]. rewrite Hd. reflexivity.
  - unfold on_play_pause, bindP, liftP. cbn [page_state playback].
    rewrite (updateIcon_same s2 _ Hc). cbn [fst snd]. rewrite Hd. reflexivity.
Qed.

(** X15.  A click on the play/pause button calls the host's [play()] when
    playback is paused and [pause()] otherwise, and then shows the state
    the host reports: [currentIcon] is ["play"] when playback is paused
    after the call and ["pause"] when it is not, whatever the button
    showed and whatever promise the call answered.  The ['play'] or
    ['pause'] notification that follows finds the icon in place and
    fetches nothing.  An error thrown by the host's call leaves the
    handler before any icon update, with the button untouched. *)
Theorem play_pause_click_shows_playback :
  forall (play pause : PlaybackCall) (pg : Page),
    let call := if paused (playback pg) then play else pause in
    (forall v pb',
        call (playback pg) = (Normal v, pb') ->
        exists s',
          playPause_onClick play pause pg = (Normal Undefined, mkPage s' pb')
          /\ currentIcon (this s') = Some (if paused pb' then "play" else "pause")
          /\ player s' = player (page_state pg)
          /\ console s' = console (page_state pg)
          /\ on_play_pause (mkPage s' pb') = (Normal tt, mkPage s' pb'))
    /\ (forall e pb',
           call (playback pg) = (Abrupt e, pb') ->
           playPause_onClick play pause pg = (Abrupt e, mkPage (page_state pg) pb')).
Proof.
  intros play pause pg call. split.
  - intros v pb' H.
    destruct (playPause_tail v (mkPage (page_state pg) pb'))
      as (s' & Ht & Hc & Hp & Hk & Hl).
    cbn [page_state playback] in *.
    exists s'. split; [ | split; [ exact Hc | split; [ exact Hp | split; [ exact Hk | exact Hl ] ] ] ].
    unfold playPause_onClick. unfold bindP at 1.
    assert (Hcall : (if paused (playback pg) then playback_call play else playback_call pause) pg
                    = (Normal v, mkPage (page_state pg) pb')).
    { subst call. unfold playback_call.
      destruct (paused (playback pg)); rewrite H; reflexivity. }
    rewrite Hcall. exact Ht.
  - intros e pb' H.
    unfold playPause_onClick. unfold bindP at 1.
    assert (Hcall : (if paused (playback pg) then playback_call play else playback_call pause) pg
                    = (Abrupt e, mkPage (page_state pg) pb')).
    { subst call. unfold playback_call.
      destruct (paused (playback pg)); rewrite H; reflexivity. }
    rewrite Hcall. reflexivity.
Qed.

(** Paused playback on the fresh page: a host that plays, and a host whose
    [play()] is refused, which leaves the icon ["play"]. *)
Lemma play_pause_click_shows_playback_witness :
  (exists s', playPause_onClick host_play host_pause (mkPage fresh_page (mkPlayback true 0))
              = (Normal Undefined, mkPage s' (mkPlayback false 0))
              /\ currentIcon (this s') = Some "pause")
  /\ (exists s', playPause_onClick host_play_refused host_pause
                                   (mkPage fresh_page (mkPlayback true 0))
                 = (Normal Undefined, mkPage s' (mkPlayback true 0))
                 /\ currentIcon (this s') = Some "play")
  /\ playPause_onClick (fun pb => (Abrupt (HostError "no source"), pb)) host_pause
                       (mkPage fresh_page (mkPlayback true 0))
     = (Abrupt (HostError "no source"), mkPage fresh_page (mkPlayback true 0)).
Proof.
  split; [ | split ].
  - destruct (proj1 (play_pause_click_shows_playback
                       host_play host_pause (mkPage fresh_page (mkPlayback true 0)))
                    (Promise Fulfilled) (mkPlayback false 0) eq_refl)
      as (s' & H1 & H2 & _).
    exists s'. split; assumption.
  - destruct (proj1 (play_pause_click_shows_playback
                       host_play_refused host_pause (mkPage fresh_page (mkPlayback true 0)))
                    (Promise (Rejected (HostError "NotAllowedError")))
                    (mkPlayback true 0) eq_refl)
      as (s' & H1 & H2 & _).
    exists s'. split; assumption.
  - exact (proj2 (play_pause_click_shows_playback
                    (fun pb => (Abrupt (HostError "no source"), pb)) host_pause
                    (mkPage fresh_page (mkPlayback true 0)))
                 (HostError "no source") (mkPlayback true 0) eq_refl).
Defined.

Lemma liftP_discard (v : value) (pg : Page) :
  exists s', liftP (discard v) pg = (Normal tt, mkPage s' (playback pg))
             /\ this s' = this (page_state pg) /\ player s' = player (page_state pg)
             /\ console s' = console (page_state pg)
             /\ requests s' = requests (page_state pg).
Proof.
  destruct (discard_frame v (page_state pg)) as (s' & D & Dp & Dt & Dr & _ & Dc & _).
  exists s'. unfold liftP. rewrite D. repeat split; assumption.
Qed.

Lemma liftP_overlay (base name : string) (pg : Page) :
  exists s', liftP (setBigOverlaySVG base name) pg
             = (Normal (Promise Fulfilled), mkPage s' (playback pg))
             /\ this s' = this (page_state pg) /\ player s' = player (page_state pg)
             /\ console s' = console (page_state pg)
             /\ requests s'
                = requests (page_state pg)
                    ++ match BigPlayButton (player (page_state pg)) with
                       | Some _ => [icon_path base name]
                       | None => []
                       end.
Proof.
  unfold liftP, setBigOverlaySVG.
  destruct (BigPlayButton (player (page_state pg))); cbn; rewrite ?app_nil_r;
    eexists; repeat split; reflexivity.
Qed.

Lemma liftP_logIf (log : bool) (args : list logarg) (pg : Page) :
  exists s', liftP (logIf log args) pg = (Normal tt, mkPage s' (playback pg))
             /\ this s' = this (page_state pg) /\ player s' = player (page_state pg)
             /\ console s'
                = console (page_state pg)
                    ++ (if log then [LStr "[vjs-custom]" :: args] else [])
             /\ requests s' = requests (page_state pg).
Proof.
  unfold liftP, logIf, modify, ret.
  destruct log; cbn; rewrite ?app_nil_r; eexists; repeat split; reflexivity.
Qed.

(** X16.  A click on the stop button never throws and never touches the
    stop button itself nor the player record.  It calls the host's
    [pause()], then [currentTime(0)], then asks for the overlay icon
    ["bigplay"]; an error thrown by one of the two calls skips what
    follows it and is logged when the plugin's [log] option is on.  So the
    overlay is fetched only when both calls returned, and then once,
    provided the player has a [BigPlayButton]. *)
Theorem stop_click_pauses_seeks_and_resets_overlay :
  forall (log : bool) (base : string) (pause : PlaybackCall) (seek : float -> PlaybackCall)
         (pg : Page),
    let out := stopBtn_onClick log base pause seek pg in
    let s := page_state pg in
    let s' := page_state (snd out) in
    let logged (e : error) :=
        console s' = console s ++ (if log then [[LStr "[vjs-custom]"; LStr "Stop error"; LErr e]]
                                   else [])
        /\ requests s' = requests s in
    fst out = Normal Undefined
    /\ this s' = this s
    /\ player s' = player s
    /\ (forall e pb1,
           pause (playback pg) = (Abrupt e, pb1) ->
           playback (snd out) = pb1 /\ logged e)
    /\ (forall v pb1 e pb2,
           pause (playback pg) = (Normal v, pb1) ->
           seek 0%float pb1 = (Abrupt e, pb2) ->
           playback (snd out) = pb2 /\ logged e)
    /\ (forall v pb1 v2 pb2,
           pause (playback pg) = (Normal v, pb1) ->
           seek 0%float pb1 = (Normal v2, pb2) ->
           playback (snd out) = pb2
           /\ console s' = console s
           /\ requests s'
              = requests s ++ match BigPlayButton (player s) with
                              | Some _ => [icon_path base "bigplay"]
                              | None => []
                              end).
Proof.
  intros log base pause seek pg out s s' logged. subst s s' logged.
  destruct (pause (playback pg)) as [[v | e] pb1] eqn:Hp.
  - destruct (liftP_discard v (mkPage (page_state pg) pb1))
      as (s1 & D1 & Ht1 & Hpl1 & Hc1 & Hr1).
    cbn [page_state playback] in *.
    destruct (seek 0%float pb1) as [[v2 | e] pb2] eqn:Hs.
    + destruct (liftP_discard v2 (mkPage s1 pb2)) as (s2 & D2 & Ht2 & Hpl2 & Hc2 & Hr2).
      destruct (liftP_overlay base "bigplay" (mkPage s2 pb2))
        as (s3 & D3 & Ht3 & Hpl3 & Hc3 & Hr3).
      destruct (liftP_discard (Promise Fulfilled) (mkPage s3 pb2))
        as (s4 & D4 & Ht4 & Hpl4 & Hc4 & Hr4).
      cbn [page_state playback] in *.
      assert (Hout : out = (Normal Undefined, mkPage s4 pb2)).
      { subst out. unfold stopBtn_onClick.
        unfold bindP at 1. unfold try_catchP.
        unfold bindP at 1. unfold playback_call at 1. rewrite Hp. cbn [fst snd].
        unfold bindP at 1. rewrite D1.
        unfold bindP at 1. unfold playback_call at 1. cbn [page_state playback].
        rewrite Hs. cbn [fst snd].
        unfold bindP at 1. rewrite D2.
        unfold bindP at 1. rewrite D3. rewrite D4. reflexivity. }
      rewrite Hout. cbn [fst snd page_state playback].
      split; [ reflexivity | split; [ congruence | split; [ congruence | split; [ | split ] ] ] ].
      * intros e0 pb0 H0. discriminate H0.
      * intros v0 pb0 e0 pb3 H0 H1. inversion H0; subst.
        rewrite Hs in H1. discriminate H1.
      * intros v0 pb0 v3 pb3 H0 H1. inversion H0; subst.
        rewrite Hs in H1. inversion H1; subst.
        split; [ reflexivity | split; [ congruence | ] ].
        rewrite Hr4, Hr3, Hpl2, Hpl1, Hr2, Hr1. reflexivity.
    + destruct (liftP_logIf log [LStr "Stop error"; LErr e] (mkPage s1 pb2))
        as (s2 & D2 & Ht2 & Hpl2 & Hc2 & Hr2).
      cbn [page_state playback] in *.
      assert (Hout : out = (Normal Undefined, mkPage s2 pb2)).
      { subst out. unfold stopBtn_onClick.
        unfold bindP at 1. unfold try_catchP.
        unfold bindP at 1. unfold playback_call at 1. rewrite Hp. cbn [fst snd].
        unfold bindP at 1. rewrite D1.
        unfold bindP at 1. unfold playback_call at 1. cbn [page_state playback].
        rewrite Hs. cbn [fst snd]. rewrite D2. reflexivity. }
      rewrite Hout. cbn [fst snd page_state playback].
      split; [ reflexivity | split; [ congruence | split; [ congruence | split; [ | split ] ] ] ].
      * intros e0 pb0 H0. discriminate H0.
      * intros v0 pb0 e0 pb3 H0 H1. inversion H0; subst.
        rewrite Hs in H1. inversion H1; subst.
        split; [ reflexivity | split; [ rewrite Hc2, Hc1; reflexivity | congruence ] ].
      * intros v0 pb0 v3 pb3 H0 H1. inversion H0; subst.
        rewrite Hs in H1. discriminate H1.
  - destruct (liftP_logIf log [LStr "Stop error"; LErr e] (mkPage (page_state pg) pb1))
      as (s2 & D2 & Ht2 & Hpl2 & Hc2 & Hr2).
    cbn [page_state playback] in *.
    assert (Hout : out = (Normal Undefined, mkPage s2 pb1)).
    { subst out. unfold stopBtn_onClick.
      unfold bindP at 1. unfold try_catchP.
      unfold bindP at 1. unfold playback_call at 1. rewrite Hp. cbn [fst snd].
      rewrite D2. reflexivity. }
    rewrite Hout. cbn [fst snd page_state playback].
    split; [ reflexivity | split; [ exact Ht2 | split; [ exact Hpl2 | split; [ | split ] ] ] ].
    + intros e0 pb0 H0. inversion H0; subst.
      split; [ reflexivity | split; assumption ].
    + intros v0 pb0 e0 pb3 H0. discriminate H0.
    + intros v0 pb0 v3 pb3 H0. discriminate H0.
Qed.

(** Playing at 12.5 s on the sample page: a host that obeys; a stream
    that cannot seek, logging on. *)
Lemma stop_click_pauses_seeks_and_resets_overlay_witness :
  (let out := stopBtn_onClick true "/img/icon" host_pause host_seek
                              (mkPage fresh_page (mkPlayback false 12.5)) in
   playback (snd out) = mkPlayback true 0
   /\ requests (page_state (snd out)) = ["/img/icon/bigplay.svg"])
  /\ (let out := stopBtn_onClick true "/img/icon" host_pause host_not_seekable
                                 (mkPage fresh_page (mkPlayback false 12.5)) in
      playback (snd out) = mkPlayback true 12.5
      /\ requests (page_state (snd out)) = []
      /\ console (page_state (snd out))
         = [[LStr "[vjs-custom]"; LStr "Stop error"; LErr (HostError "not seekable")]])
  /\ requests (page_state (snd (stopBtn_onClick false "/img/icon" (fun pb => (Abrupt (HostError "gone"), pb)) host_seek (mkPage fresh_page (mkPlayback false 12.5))))) = [].
Proof.
  pose proof (stop_click_pauses_seeks_and_resets_overlay
                true "/img/icon" host_pause host_seek
                (mkPage fresh_page (mkPlayback false 12.5))) as H1.
  pose proof (stop_click_pauses_seeks_and_resets_overlay
                true "/img/icon" host_pause host_not_seekable
                (mkPage fresh_page (mkPlayback false 12.5))) as H2.
  pose proof (stop_click_pauses_seeks_and_resets_overlay
                false "/img/icon" (fun pb => (Abrupt (HostError "gone"), pb)) host_seek
                (mkPage fresh_page (mkPlayback false 12.5))) as H3.
  cbv zeta in H1, H2, H3.
  destruct H1 as (_ & _ & _ & _ & _ & H1).
  destruct H2 as (_ & _ & _ & _ & H2 & _).
  destruct H3 as (_ & _ & _ & H3 & _).
  destruct (H1 Undefined (mkPlayback true 12.5) Undefined (mkPlayback true 0) eq_refl eq_refl)
    as (A1 & _ & A2).
  destruct (H2 Undefined (mkPlayback true 12.5) (HostError "not seekable")
               (mkPlayback true 12.5) eq_refl eq_refl) as (B1 & B2 & B3).
  destruct (H3 (HostError "gone") (mkPlayback false 12.5) eq_refl) as (_ & _ & C3).
  cbv zeta.
  split; [ split; [ exact A1 | exact A2 ] | split; [ | exact C3 ] ].
  split; [ exact B1 | split; [ exact B3 | exact B2 ] ].
Defined.

(** ** Overlay notifications *)



